(** * Trip assignment engine: a shallow embedding and its properties

    The development follows the TypeScript module that exports
    [assignTripsToDrivers] (the "Fast Trip Assignment Algorithm").

    Conventions of the embedding.
    - A JavaScript [number] that holds an integer is a [Z]; a number that
      may also be [NaN] is an [option Z], written [number], with [NaN] for
      [None].  All arithmetic of the module is on integers below 2^53 or
      on comparisons that rounding cannot flip, so exact arithmetic agrees
      with the double arithmetic of the source.
    - A [Date] is its time value: milliseconds since the epoch, or [NaN]
      for an Invalid Date.
    - A string is a [string] whose characters are read as code units below
      256.
    - A JavaScript [Map] with string keys is a [gmap string _].
    - An exception is a [Throw] in the [result] monad.
    - [String.prototype.localeCompare] depends on the host's collation
      tables; it is a parameter of the development. *)

From Stdlib Require Import ZArith QArith String Ascii List Lia Sorted Permutation
  OrderedTypeEx.
From stdpp Require Import gmap strings list pretty.

Local Open Scope string_scope.
Local Open Scope list_scope.
Local Open Scope Z_scope.

(** ** Numbers, exceptions *)

Definition number := option Z.
Abbreviation NaN := (@None Z).

Inductive exn := RangeError | TypeError.

Inductive result (A : Type) :=
| Ok (a : A)
| Throw (e : exn).
Arguments Ok {A} a.
Arguments Throw {A} e.

(** Sequencing: an exception skips what follows.  With these instances the
    code is written [x ← r; k]. *)
#[global] Instance result_ret : MRet result := fun _ a => Ok a.
#[global] Instance result_bind : MBind result := fun _ _ k r =>
  match r with
  | Ok a => k a
  | Throw e => Throw e
  end.

(** ** Built-ins of the host used by the module *)

Module Js.

(** *** [String.prototype.split] with a one-character separator *)
Fixpoint split (sep : ascii) (s : string) : list string :=
  match s with
  | EmptyString => [EmptyString]
  | String c rest =>
      if Ascii.eqb c sep then EmptyString :: split sep rest
      else match split sep rest with
           | part :: parts => String c part :: parts
           | [] => [String c EmptyString]
           end
  end.

(** *** [parseInt(s, 10)] *)
(** WhiteSpace and LineTerminator code units below 256: TAB, LF, VT, FF,
    CR, SP and NBSP. *)
Definition isWhiteSpace (c : ascii) : bool :=
  let n := nat_of_ascii c in
  (Nat.eqb n 9 || Nat.eqb n 10 || Nat.eqb n 11 || Nat.eqb n 12
   || Nat.eqb n 13 || Nat.eqb n 32 || Nat.eqb n 160)%bool.

Fixpoint trimStart (s : string) : string :=
  match s with
  | String c rest => if isWhiteSpace c then trimStart rest else s
  | EmptyString => EmptyString
  end.

Definition digitValue (c : ascii) : option Z :=
  let n := Z.of_nat (nat_of_ascii c) in
  if (48 <=? n) && (n <=? 57) then Some (n - 48) else None.

(** The value of the longest prefix of decimal digits, read after [acc]. *)
Fixpoint digits (acc : Z) (s : string) : Z :=
  match s with
  | String c rest =>
      match digitValue c with
      | Some v => digits (10 * acc + v) rest
      | None => acc
      end
  | EmptyString => acc
  end.

(** Leading white space is skipped, one sign is read, then the longest
    prefix of digits; what follows the digits is ignored.  No digit at
    all gives [NaN]. *)
Definition parseInt (s : string) : number :=
  let s1 := trimStart s in
  let '(sign, s2) :=
    match s1 with
    | String "-" rest => (-1, rest)
    | String "+" rest => (1, rest)
    | _ => (1, s1)
    end in
  match s2 with
  | String c _ =>
      match digitValue c with
      | Some _ => Some (sign * digits 0 s2)
      | None => NaN
      end
  | EmptyString => NaN
  end.

(** *** [String.prototype.trim], [padStart], [Number.prototype.toString] *)
Fixpoint trimEnd (s : string) : string :=
  match s with
  | EmptyString => EmptyString
  | String c rest =>
      match trimEnd rest with
      | EmptyString => if isWhiteSpace c then EmptyString else String c EmptyString
      | rest' => String c rest'
      end
  end.

Definition trim (s : string) : string := trimEnd (trimStart s).

Fixpoint repeatChar (c : ascii) (n : nat) : string :=
  match n with
  | O => EmptyString
  | S n' => String c (repeatChar c n')
  end.

(** [s.padStart(targetLength, c)] with a one-character pad string. *)
Definition padStart (s : string) (targetLength : nat) (c : ascii) : string :=
  repeatChar c (targetLength - String.length s) +:+ s.

(** [n.toString()] of an integer or [NaN]. *)
Definition numberToString (n : number) : string :=
  match n with
  | Some z => pretty z
  | None => "NaN"
  end.

(** *** Dates *)
Definition msPerDay : Z := 86400000.
Definition msPerHour : Z := 3600000.
Definition msPerMinute : Z := 60000.
Definition msPerSecond : Z := 1000.

Definition Date := number.

Definition Day (t : Z) : Z := t / msPerDay.
Definition TimeWithinDay (t : Z) : Z := t mod msPerDay.

Definition MakeTime (hour min sec ms : Z) : Z :=
  hour * msPerHour + min * msPerMinute + sec * msPerSecond + ms.

Definition MakeDate (day time : Z) : Z := day * msPerDay + time.

Definition TimeClip (time : Z) : number :=
  if Z.abs time >? 8640000000000000 then NaN else Some time.

(** [d.setUTCHours(hour, min, sec, ms)]: the new time value of [d]. *)
Definition setUTCHours (d : Date) (hour min sec ms : Z) : Date :=
  match d with
  | None => NaN
  | Some t => TimeClip (MakeDate (Day t) (MakeTime hour min sec ms))
  end.

(** Year, month (1..12) and day of the month of a day number. *)
Definition civil (day : Z) : Z * Z * Z :=
  let z := day + 719468 in
  let era := z / 146097 in
  let doe := z - era * 146097 in
  let yoe := (doe - doe / 1460 + doe / 36524 - doe / 146096) / 365 in
  let doy := doe - (365 * yoe + yoe / 4 - yoe / 100) in
  let mp := (5 * doy + 2) / 153 in
  let d := doy - (153 * mp + 2) / 5 + 1 in
  let m := if mp <? 10 then mp + 3 else mp - 9 in
  let y := yoe + era * 400 + (if m <=? 2 then 1 else 0) in
  (y, m, d).

Fixpoint zeros (n : nat) : string :=
  match n with
  | O => EmptyString
  | S n' => String "0" (zeros n')
  end.

(** Decimal digits of a non-negative integer, padded on the left with
    zeros to [width] characters. *)
Definition pad (width : nat) (n : Z) : string :=
  let s := pretty (Z.to_N n) in
  zeros (width - String.length s) +:+ s.

(** [d.toISOString()]; a [RangeError] on an Invalid Date. *)
Definition toISOString (d : Date) : result string :=
  match d with
  | None => Throw RangeError
  | Some t =>
      let '(y, m, dd) := civil (Day t) in
      let tod := TimeWithinDay t in
      let year :=
        if (0 <=? y) && (y <=? 9999) then pad 4 y
        else (if y <? 0 then "-" else "+") +:+ pad 6 (Z.abs y) in
      Ok (year +:+ "-" +:+ pad 2 m +:+ "-" +:+ pad 2 dd +:+ "T"
          +:+ pad 2 (tod / msPerHour) +:+ ":"
          +:+ pad 2 (tod mod msPerHour / msPerMinute) +:+ ":"
          +:+ pad 2 (tod mod msPerMinute / msPerSecond) +:+ "."
          +:+ pad 3 (tod mod msPerSecond) +:+ "Z")
  end.

(** *** [Array.prototype.sort] with a comparator *)
(** The sort is stable; with a consistent comparator its result is the
    stable sorted arrangement, which insertion from the right computes. *)
Section Sort.
Context {A : Type} (cmp : A -> A -> Z).

Fixpoint insert (x : A) (l : list A) : list A :=
  match l with
  | [] => [x]
  | y :: l' => if cmp x y <=? 0 then x :: l else y :: insert x l'
  end.

Definition sort (l : list A) : list A := foldr insert [] l.
End Sort.

End Js.

(** ** Data of the module *)

Definition MIN_HOURS_BETWEEN_TRIPS : Z := 3.
Definition NIGHT_SHIFT_CUTOFF_HOUR : Z := 5.

Module Trip.
Record t := mk {
  id : string;
  tripId : string;
  tripDate : Js.Date;
  dayOfWeek : Z;
  plannedArrivalTime : option string
}.
End Trip.

Module Driver.
(** [priority] is read through [?? 2], so it may be absent. *)
Record t := mk {
  id : string;
  name : string;
  priority : option Z;
  availability : list Z
}.
End Driver.

Module Assignment.
Record t := mk {
  tripId : string;
  driverId : string;
  reasoning : string
}.
End Assignment.

Module DriverDistribution.
Record t := mk {
  driverId : string;
  driverName : string;
  tripCount : Z
}.
End DriverDistribution.

Module Stats.
Record t := mk {
  totalTrips : Z;
  assignedCount : Z;
  unassignedCount : Z
}.
End Stats.

Module AssignmentResult.
Record t := mk {
  assignments : list Assignment.t;
  warnings : list string;
  summary : string;
  distribution : list DriverDistribution.t;
  stats : Stats.t
}.
End AssignmentResult.

Module ExistingAssignment.
Record t := mk {
  driverId : string;
  tripDate : Js.Date;
  plannedArrivalTime : option string
}.
End ExistingAssignment.

Definition DAY_NAMES : list string :=
  ["Sunday"; "Monday"; "Tuesday"; "Wednesday"; "Thursday"; "Friday"; "Saturday"].

(** [DAY_NAMES[k]] inside a template literal: an index outside the array
    reads [undefined], which prints as such. *)
Definition dayName (k : Z) : string :=
  if k <? 0 then "undefined" else nth (Z.to_nat k) DAY_NAMES "undefined".

(** ** Time helpers *)

Record HoursMinutes := { hours : Z; minutes : Z }.

Definition parseTime (time : option string) : option HoursMinutes :=
  match time with
  | None => None
  | Some EmptyString => None
  | Some s =>
      match Js.split ":" s with
      | [part0; part1] =>
          match Js.parseInt part0, Js.parseInt part1 with
          | Some h, Some m =>
              if (h <? 0) || (h >? 23) then None
              else if (m <? 0) || (m >? 59) then None
              else Some {| hours := h; minutes := m |}
          | _, _ => None
          end
      | _ => None
      end
  end.

Definition getEffectiveDayOfWeek (dayOfWeek : Z) (time : option string) : Z :=
  match parseTime time with
  | None => dayOfWeek
  | Some parsed =>
      if hours parsed >=? NIGHT_SHIFT_CUTOFF_HOUR then dayOfWeek
      else if dayOfWeek =? 0 then 6 else dayOfWeek - 1
  end.

Definition getTimestamp (date : Js.Date) (time : option string) : number :=
  match parseTime time with
  | Some parsed => Js.setUTCHours date (hours parsed) (minutes parsed) 0 0
  | None => Js.setUTCHours date 0 0 0 0
  end.

(** A comparison with [NaN] is false. *)
Definition timestampsTooClose (ts1 ts2 : number) : bool :=
  match ts1, ts2 with
  | Some t1, Some t2 =>
      let diffMs := Z.abs (t1 - t2) in
      let diffHours := (inject_Z diffMs / inject_Z (1000 * 60 * 60))%Q in
      match (diffHours ?= inject_Z MIN_HOURS_BETWEEN_TRIPS)%Q with
      | Lt => true
      | _ => false
      end
  | _, _ => false
  end.

(** ** The CSV import *)

Module ParsedTrip.
Record t := mk {
  tripId : string;
  tripDate : Js.Date;
  dayOfWeek : Z;
  tripStage : string;
  plannedArrivalTime : option string
}.
End ParsedTrip.

(** A row as the CSV reader gives it: a column that the file lacks reads
    [undefined]. *)
Module CSVRow.
Record t := mk {
  TripID : option string;
  Stop1PlannedArrivalDate : option string;
  Stop1PlannedArrivalTime : option string;
  TripStage : option string
}.
End CSVRow.

Module CSVParseResult.
Record t := mk {
  trips : list ParsedTrip.t;
  errors : list string;
  skippedCanceled : Z;
  skippedDuplicate : Z;
  skippedInvalidDate : Z
}.
End CSVParseResult.

Module Csv.

Definition DATE_FORMATS : list string :=
  ["M/d/yy"; "MM/dd/yy"; "M/d/yyyy"; "MM/dd/yyyy"; "yyyy-MM-dd"; "dd/MM/yyyy";
   "dd-MM-yyyy"; "MMM d, yyyy"; "MMMM d, yyyy"].

(** [isValid] of date-fns on a [Date]. *)
Definition isValid (d : Js.Date) : bool :=
  match d with
  | Some _ => true
  | None => false
  end.

(** The regular expression [^(\d{1,2}):(\d{2})$]: the two groups of a
    match. *)
Definition isDigit (c : ascii) : bool :=
  match Js.digitValue c with
  | Some _ => true
  | None => false
  end.

(** What follows the first group: a colon, two digits, the end. *)
Definition matchMinutes (group1 rest : string) : option (string * string) :=
  match rest with
  | String c (String m1 (String m2 EmptyString)) =>
      if Ascii.eqb c ":" && isDigit m1 && isDigit m2
      then Some (group1, String m1 (String m2 EmptyString))
      else None
  | _ => None
  end.

(** The first group takes a second digit when there is one; giving it
    back would leave a digit where the colon must be. *)
Definition matchTime (s : string) : option (string * string) :=
  match s with
  | String h1 rest1 =>
      if isDigit h1 then
        match rest1 with
        | String h2 rest2 =>
            if isDigit h2
            then matchMinutes (String h1 (String h2 EmptyString)) rest2
            else matchMinutes (String h1 EmptyString) rest1
        | EmptyString => None
        end
      else None
  | EmptyString => None
  end.

(** Comparisons of numbers; with [NaN] they are false. *)
Definition ltNum (a : number) (b : Z) : bool :=
  match a with
  | Some x => x <? b
  | None => false
  end.

Definition gtNum (a : number) (b : Z) : bool :=
  match a with
  | Some x => x >? b
  | None => false
  end.

Definition parseTime (timeStr : option string) : option string :=
  match timeStr with
  | None | Some EmptyString => None
  | Some s =>
      let trimmed := Js.trim s in
      match trimmed with
      | EmptyString => None
      | _ =>
          match matchTime trimmed with
          | None => None
          | Some (g1, g2) =>
              let hours := Js.parseInt g1 in
              let minutes := Js.parseInt g2 in
              if ltNum hours 0 || gtNum hours 23 || ltNum minutes 0
                 || gtNum minutes 59
              then None
              else Some (Js.padStart (Js.numberToString hours) 2 "0" +:+ ":"
                         +:+ Js.padStart (Js.numberToString minutes) 2 "0")
          end
      end
  end.

(** The map of the trips found so far, in insertion order. *)
Definition has (trips : list (string * ParsedTrip.t)) (key : string) : bool :=
  existsb (fun kv => String.eqb (fst kv) key) trips.

Fixpoint set (trips : list (string * ParsedTrip.t)) (key : string)
    (value : ParsedTrip.t) : list (string * ParsedTrip.t) :=
  match trips with
  | [] => [(key, value)]
  | (k, v) :: rest =>
      if String.eqb k key then (k, value) :: rest
      else (k, v) :: set rest key value
  end.

(** The variables of the [complete] callback of [parseTripsCSV]. *)
Record Locals := {
  trips : list (string * ParsedTrip.t);
  errors : list string;
  skippedCanceled : Z;
  skippedDuplicate : Z;
  skippedInvalidDate : Z
}.

Definition quote : string := String (ascii_of_nat 34) EmptyString.

(** A string, or [undefined], inside a template literal. *)
Definition showString (s : option string) : string :=
  match s with
  | Some s => s
  | None => "undefined"
  end.

Section Parser.

(** [parse(text, format, new Date())] of date-fns: a [Date], which may be
    invalid, or an exception. *)
Variable parse : string -> string -> result Js.Date.
(** [new Date(text)]. *)
Variable newDate : string -> Js.Date.
(** [getDay] of date-fns: the day of the week in the local time zone. *)
Variable getDay : Js.Date -> Z.

Fixpoint tryFormats (trimmed : string) (formats : list string) : option Js.Date :=
  match formats with
  | [] => None
  | format :: formats' =>
      match parse trimmed format with
      | Ok parsed =>
          if isValid parsed then Some parsed else tryFormats trimmed formats'
      | Throw _ => tryFormats trimmed formats'
      end
  end.

Definition parseFlexibleDate (dateStr : option string) : option Js.Date :=
  match dateStr with
  | None | Some EmptyString => None
  | Some s =>
      let trimmed := Js.trim s in
      match tryFormats trimmed DATE_FORMATS with
      | Some parsed => Some parsed
      | None =>
          let nativeDate := newDate trimmed in
          if isValid nativeDate then Some nativeDate else None
      end
  end.

(** The body of the loop over the rows. *)
Definition processRow (st : Locals) (row : CSVRow.t) : Locals :=
  let tripStage :=
    match CSVRow.TripStage row with
    | None | Some EmptyString => "Upcoming"
    | Some stage => stage
    end in
  if String.eqb tripStage "Canceled" then
    {| trips := trips st; errors := errors st;
       skippedCanceled := skippedCanceled st + 1;
       skippedDuplicate := skippedDuplicate st;
       skippedInvalidDate := skippedInvalidDate st |}
  else
    match CSVRow.TripID row with
    | None | Some EmptyString => st
    | Some tripId =>
        if has (trips st) tripId then
          {| trips := trips st; errors := errors st;
             skippedCanceled := skippedCanceled st;
             skippedDuplicate := skippedDuplicate st + 1;
             skippedInvalidDate := skippedInvalidDate st |}
        else
          let dateStr := CSVRow.Stop1PlannedArrivalDate row in
          match parseFlexibleDate dateStr with
          | None =>
              {| trips := trips st;
                 errors := errors st ++
                   ["Invalid date format for trip " +:+ tripId +:+ ": "
                    +:+ quote +:+ showString dateStr +:+ quote];
                 skippedCanceled := skippedCanceled st;
                 skippedDuplicate := skippedDuplicate st;
                 skippedInvalidDate := skippedInvalidDate st + 1 |}
          | Some tripDate =>
              let timeStr := CSVRow.Stop1PlannedArrivalTime row in
              let plannedArrivalTime := parseTime timeStr in
              {| trips :=
                   set (trips st) tripId
                     {| ParsedTrip.tripId := tripId;
                        ParsedTrip.tripDate := tripDate;
                        ParsedTrip.dayOfWeek := getDay tripDate;
                        ParsedTrip.tripStage := tripStage;
                        ParsedTrip.plannedArrivalTime := plannedArrivalTime |};
                 errors := errors st;
                 skippedCanceled := skippedCanceled st;
                 skippedDuplicate := skippedDuplicate st;
                 skippedInvalidDate := skippedInvalidDate st |}
          end
    end.

(** The [complete] callback of [parseTripsCSV], on the rows the CSV reader
    passes to it. *)
Definition parseTripsCSV (data : list CSVRow.t) : CSVParseResult.t :=
  let st :=
    foldl processRow
      {| trips := []; errors := []; skippedCanceled := 0;
         skippedDuplicate := 0; skippedInvalidDate := 0 |}
      data in
  {| CSVParseResult.trips := map snd (trips st);
     CSVParseResult.errors := errors st;
     CSVParseResult.skippedCanceled := skippedCanceled st;
     CSVParseResult.skippedDuplicate := skippedDuplicate st;
     CSVParseResult.skippedInvalidDate := skippedInvalidDate st |}.

End Parser.

Definition requiredColumns : list string :=
  ["Trip ID"; "Stop 1 Planned Arrival Date"; "Stop 1 Planned Arrival Time";
   "Trip Stage"].

Definition includes (l : list string) (x : string) : bool :=
  existsb (String.eqb x) l.

(** The [complete] callback of [validateCSVColumns], on the header fields
    of the file: [valid] and [missingColumns]. *)
Definition validateCSVColumns (fields : option (list string))
  : bool * list string :=
  let headers := default [] fields in
  let missingColumns :=
    List.filter (fun col => negb (includes headers col)) requiredColumns in
  (match missingColumns with [] => true | _ => false end, missingColumns).

End Csv.

(** The stage of a row, and the rows that are not canceled and lack a
    trip id. *)
Definition stageOf (row : CSVRow.t) : string :=
  match CSVRow.TripStage row with
  | None | Some EmptyString => "Upcoming"
  | Some stage => stage
  end.

Definition lacksId (row : CSVRow.t) : bool :=
  negb (String.eqb (stageOf row) "Canceled") &&
  match CSVRow.TripID row with
  | None | Some EmptyString => true
  | Some _ => false
  end.

(** The trip ids of the rows that have one. *)
Definition rowIds (data : list CSVRow.t) : list string :=
  omap CSVRow.TripID data.

(** What the CSV import guarantees of a trip it returns. *)
Definition importedTrip (getDay : Js.Date -> Z) (p : ParsedTrip.t) : Prop :=
  ParsedTrip.tripId p <> EmptyString /\
  ParsedTrip.tripStage p <> "Canceled" /\
  (exists t, ParsedTrip.tripDate p = Some t) /\
  ParsedTrip.dayOfWeek p = getDay (ParsedTrip.tripDate p) /\
  (ParsedTrip.plannedArrivalTime p = None \/
   exists time h m,
     ParsedTrip.plannedArrivalTime p = Some time /\
     0 <= h <= 23 /\ 0 <= m <= 59 /\
     parseTime (Some time) = Some {| hours := h; minutes := m |}).

(** The strings of digits that a group of the time pattern can hold. *)
Definition digitChars : list ascii :=
  ["0"; "1"; "2"; "3"; "4"; "5"; "6"; "7"; "8"; "9"]%char.

Definition digitGroups : list string :=
  map (fun c => String c EmptyString) digitChars
  ++ flat_map (fun c1 => map (fun c2 => String c1 (String c2 EmptyString))
                           digitChars) digitChars.

(** ** The check of the assignments proposed by the language model *)

Module AIAssignment.
Record t := mk {
  tripId : string;
  driverId : string;
  reasoning : string
}.
End AIAssignment.

Module AiActions.

(** The callback of [parsed.assignments.filter] in [autoAssignDrivers],
    with the warnings it pushes: whether the assignment is kept, and the
    warnings after it. *)
Definition keepAssignment (tripIdSet driverIdSet : gset string)
    (warnings : list string) (a : AIAssignment.t) : bool * list string :=
  if negb (bool_decide (AIAssignment.tripId a ∈ tripIdSet)) then
    (false, warnings ++ ["Skipped invalid trip ID: " +:+ AIAssignment.tripId a])
  else if negb (bool_decide (AIAssignment.driverId a ∈ driverIdSet)) then
    (false, warnings ++ ["Skipped invalid driver ID: " +:+ AIAssignment.driverId a])
  else (true, warnings).

(** [validAssignments] and [warnings] of [autoAssignDrivers], from the ids
    of the trips and of the drivers and from the parsed response. *)
Fixpoint filterAssignments (tripIdSet driverIdSet : gset string)
    (warnings : list string) (l : list AIAssignment.t)
  : list AIAssignment.t * list string :=
  match l with
  | [] => ([], warnings)
  | a :: l' =>
      let '(keep, warnings') := keepAssignment tripIdSet driverIdSet warnings a in
      let '(kept, warnings'') :=
        filterAssignments tripIdSet driverIdSet warnings' l' in
      (if keep then a :: kept else kept, warnings'')
  end.

Definition validAssignments (tripIds driverIds : list string)
    (parsedAssignments : list AIAssignment.t) (parsedWarnings : list string)
  : list AIAssignment.t * list string :=
  filterAssignments (list_to_set tripIds) (list_to_set driverIds)
    parsedWarnings parsedAssignments.

End AiActions.

(** ** Data of the examples *)

(** Comparison of names by code units: what [localeCompare] gives on the
    names of the examples. *)
Definition compareCodeUnits (a b : string) : Z :=
  match String.compare a b with
  | Lt => -1
  | Eq => 0
  | Gt => 1
  end.

(** 2026-01-14T00:00:00.000Z, a Wednesday. *)
Definition wednesday : Js.Date := Some 1768348800000.

Definition alice : Driver.t :=
  {| Driver.id := "d1"; Driver.name := "Alice"; Driver.priority := Some 1;
     Driver.availability := [2; 3] |}.

Definition bob : Driver.t :=
  {| Driver.id := "d2"; Driver.name := "Bob"; Driver.priority := Some 2;
     Driver.availability := [3] |}.

Definition carol : Driver.t :=
  {| Driver.id := "d3"; Driver.name := "Carol"; Driver.priority := None;
     Driver.availability := [3] |}.

Definition tripAt (id : string) (time : option string) : Trip.t :=
  {| Trip.id := id; Trip.tripId := "T-" +:+ id; Trip.tripDate := wednesday;
     Trip.dayOfWeek := 3; Trip.plannedArrivalTime := time |}.

Definition existingAt (driverId : string) (time : option string)
  : ExistingAssignment.t :=
  {| ExistingAssignment.driverId := driverId;
     ExistingAssignment.tripDate := wednesday;
     ExistingAssignment.plannedArrivalTime := time |}.

Definition morningTrips : list Trip.t :=
  [tripAt "1" (Some "09:00"); tripAt "2" (Some "13:00")].

Definition malformedTrip : Trip.t := tripAt "1" (Some "abc").


(** ** The assignment function *)

(** The variables the loops of [assignTripsToDrivers] update. *)
Record Locals := {
  driverLoad : gmap string number;
  driverTimestamps : gmap string (list number);
  assignments : list Assignment.t;
  warnings : list string
}.

Section Engine.

(** [a.localeCompare(b)]: negative, zero or positive. *)
Variable localeCompare : string -> string -> Z.

Definition priorityOf (d : Driver.t) : Z := default 2 (Driver.priority d).

(** [driverLoad.get(id) || 0]: a missing entry, [NaN] and [0] all read
    as [0]. *)
Definition loadOf (load : gmap string number) (id : string) : Z :=
  match load !! id with
  | Some (Some n) => n
  | _ => 0
  end.

(** [driverTimestamps.get(id) || []] *)
Definition timestampsOf (ts : gmap string (list number)) (id : string)
  : list number :=
  default [] (ts !! id).

(** First loop: every driver starts with no load and no timestamp. *)
Definition initDriver (st : Locals) (driver : Driver.t) : Locals :=
  {| driverLoad := <[Driver.id driver := Some 0]> (driverLoad st);
     driverTimestamps := <[Driver.id driver := []]> (driverTimestamps st);
     assignments := assignments st;
     warnings := warnings st |}.

(** Second loop: an existing assignment of a known driver adds its
    timestamp and one unit of load; another one is skipped. *)
Definition addExisting (st : Locals) (existing : ExistingAssignment.t)
  : Locals :=
  let id := ExistingAssignment.driverId existing in
  match driverTimestamps st !! id with
  | Some timestamps =>
      {| driverLoad :=
           <[id := Some (loadOf (driverLoad st) id + 1)]> (driverLoad st);
         driverTimestamps :=
           <[id := timestamps ++
                   [getTimestamp (ExistingAssignment.tripDate existing)
                      (ExistingAssignment.plannedArrivalTime existing)]]>
             (driverTimestamps st);
         assignments := assignments st;
         warnings := warnings st |}
  | None => st
  end.

Definition emptyLocals : Locals :=
  {| driverLoad := ∅; driverTimestamps := ∅; assignments := []; warnings := [] |}.

Definition initLocals (drivers : list Driver.t)
    (existingAssignments : list ExistingAssignment.t) : Locals :=
  foldl addExisting (foldl initDriver emptyLocals drivers) existingAssignments.

(** Comparator of the per-day lists: priority, then name. *)
Definition byPriorityThenName (a b : Driver.t) : Z :=
  let priorityDiff := priorityOf a - priorityOf b in
  if negb (priorityDiff =? 0) then priorityDiff
  else localeCompare (Driver.name a) (Driver.name b).

Definition availableOn (day : Z) (d : Driver.t) : bool :=
  existsb (fun a => a =? day) (Driver.availability d).

Definition dayDriversFor (drivers : list Driver.t) (day : Z) : list Driver.t :=
  Js.sort byPriorityThenName (List.filter (availableOn day) drivers).

Definition buildDriversByDay (drivers : list Driver.t) : gmap Z (list Driver.t) :=
  foldl (fun m day => <[day := dayDriversFor drivers day]> m) ∅ (seqZ 0 7).

(** The callback of [reduce]: the better of the best so far and the
    next driver. *)
Definition pickDriver (load : gmap string number) (bestDriver driver : Driver.t)
  : Driver.t :=
  let bestPriority := priorityOf bestDriver in
  let currentPriority := priorityOf driver in
  let bestLoad := loadOf load (Driver.id bestDriver) in
  let currentLoad := loadOf load (Driver.id driver) in
  if currentPriority <? bestPriority then driver
  else if currentPriority >? bestPriority then bestDriver
  else if currentLoad <? bestLoad then driver
  else if currentLoad >? bestLoad then bestDriver
  else if localeCompare (Driver.name driver) (Driver.name bestDriver) <? 0
       then driver else bestDriver.

Definition priorityLabel (d : Driver.t) : string :=
  match Driver.priority d with
  | Some 1 => "high"
  | Some 3 => "low"
  | _ => "med"
  end.

Definition hasConflict (ts : gmap string (list number)) (tripTimestamp : number)
    (driver : Driver.t) : bool :=
  existsb (fun assignedTs => timestampsTooClose assignedTs tripTimestamp)
          (timestampsOf ts (Driver.id driver)).

(** The constants of the body of the loop over the trips. *)
Definition tripTimestampOf (trip : Trip.t) : number :=
  getTimestamp (Trip.tripDate trip) (Trip.plannedArrivalTime trip).

Definition effectiveDayOf (trip : Trip.t) : Z :=
  getEffectiveDayOfWeek (Trip.dayOfWeek trip) (Trip.plannedArrivalTime trip).

Definition dayDriversOf (driversByDay : gmap Z (list Driver.t)) (trip : Trip.t)
  : list Driver.t :=
  default [] (driversByDay !! effectiveDayOf trip).

Definition availableDriversOf (driversByDay : gmap Z (list Driver.t))
    (ts : gmap string (list number)) (trip : Trip.t) : list Driver.t :=
  List.filter (fun driver => negb (hasConflict ts (tripTimestampOf trip) driver))
              (dayDriversOf driversByDay trip).

(** The body of the loop over the trips. *)
Definition processTrip (driversByDay : gmap Z (list Driver.t))
    (st : Locals) (trip : Trip.t) : result Locals :=
  let tripTimestamp := tripTimestampOf trip in
  let effectiveDay := effectiveDayOf trip in
  let dayDrivers := dayDriversOf driversByDay trip in
  let availableDrivers :=
    availableDriversOf driversByDay (driverTimestamps st) trip in
  match availableDrivers with
  | [] =>
      match dayDrivers with
      | [] =>
          let effectiveDayName := dayName effectiveDay in
          let isNightShift := negb (effectiveDay =? Trip.dayOfWeek trip) in
          let dayInfo :=
            if isNightShift
            then effectiveDayName +:+ " (night shift into "
                 +:+ dayName (Trip.dayOfWeek trip) +:+ ")"
            else effectiveDayName in
          Ok {| driverLoad := driverLoad st;
                driverTimestamps := driverTimestamps st;
                assignments := assignments st;
                warnings := warnings st ++
                  ["Trip " +:+ Trip.tripId trip
                   +:+ ": No driver available on " +:+ dayInfo] |}
      | _ :: _ =>
          let timeStr :=
            match Trip.plannedArrivalTime trip with
            | None | Some EmptyString => "unknown time"
            | Some s => s
            end in
          iso ← Js.toISOString (Trip.tripDate trip);
          let dateStr := hd "" (Js.split "T" iso) in
          Ok {| driverLoad := driverLoad st;
                driverTimestamps := driverTimestamps st;
                assignments := assignments st;
                warnings := warnings st ++
                  ["Trip " +:+ Trip.tripId trip
                   +:+ ": All drivers have conflicting trips near "
                   +:+ timeStr +:+ " on " +:+ dateStr] |}
      end
  | first :: rest =>
      let selectedDriver := fold_left (pickDriver (driverLoad st)) rest first in
      let isNightShift := negb (effectiveDay =? Trip.dayOfWeek trip) in
      let dayLabel :=
        if isNightShift then dayName effectiveDay +:+ " night"
        else dayName (Trip.dayOfWeek trip) in
      let assignment :=
        {| Assignment.tripId := Trip.id trip;
           Assignment.driverId := Driver.id selectedDriver;
           Assignment.reasoning :=
             dayLabel +:+ " - " +:+ Driver.name selectedDriver
             +:+ " (" +:+ priorityLabel selectedDriver +:+ " priority)" |} in
      (* [driverTimestamps.get(selectedDriver.id)!.push(tripTimestamp)]: a
         missing entry is a TypeError.  [driverLoad.get(selectedDriver.id)! + 1]
         is [NaN] on a missing entry. *)
      match driverTimestamps st !! Driver.id selectedDriver with
      | None => Throw TypeError
      | Some timestamps =>
          Ok {| driverLoad :=
                  <[Driver.id selectedDriver :=
                      match driverLoad st !! Driver.id selectedDriver with
                      | Some (Some n) => Some (n + 1)
                      | _ => NaN
                      end]>
                    (driverLoad st);
                driverTimestamps :=
                  <[Driver.id selectedDriver := timestamps ++ [tripTimestamp]]>
                    (driverTimestamps st);
                assignments := assignments st ++ [assignment];
                warnings := warnings st |}
      end
  end.

(** The loop over the trips, from the left. *)
Fixpoint processTrips (driversByDay : gmap Z (list Driver.t))
    (st : Locals) (trips : list Trip.t) : result Locals :=
  match trips with
  | [] => Ok st
  | trip :: trips' =>
      st' ← processTrip driversByDay st trip;
      processTrips driversByDay st' trips'
  end.

Definition byTripCountDesc (a b : DriverDistribution.t) : Z :=
  DriverDistribution.tripCount b - DriverDistribution.tripCount a.

Definition buildDistribution (drivers : list Driver.t)
    (load : gmap string number)
  : list DriverDistribution.t :=
  Js.sort byTripCountDesc
    (List.filter (fun d => DriverDistribution.tripCount d >? 0)
       (map (fun d => {| DriverDistribution.driverId := Driver.id d;
                         DriverDistribution.driverName := Driver.name d;
                         DriverDistribution.tripCount := loadOf load (Driver.id d) |})
            drivers)).

Definition lengthZ {A} (l : list A) : Z := Z.of_nat (length l).

Definition assignTripsToDrivers (trips : list Trip.t) (drivers : list Driver.t)
    (existingAssignments : list ExistingAssignment.t)
  : result AssignmentResult.t :=
  match trips with
  | [] =>
      Ok {| AssignmentResult.assignments := [];
            AssignmentResult.warnings := [];
            AssignmentResult.summary := "No trips to assign";
            AssignmentResult.distribution := [];
            AssignmentResult.stats :=
              {| Stats.totalTrips := 0; Stats.assignedCount := 0;
                 Stats.unassignedCount := 0 |} |}
  | _ :: _ =>
      match drivers with
      | [] =>
          Ok {| AssignmentResult.assignments := [];
                AssignmentResult.warnings := ["No active drivers available"];
                AssignmentResult.summary := "Assignment failed: No drivers";
                AssignmentResult.distribution := [];
                AssignmentResult.stats :=
                  {| Stats.totalTrips := lengthZ trips; Stats.assignedCount := 0;
                     Stats.unassignedCount := lengthZ trips |} |}
      | _ :: _ =>
          let driversByDay := buildDriversByDay drivers in
          st ← processTrips driversByDay
                 (initLocals drivers existingAssignments) trips;
          let distribution := buildDistribution drivers (driverLoad st) in
          let unassignedCount := lengthZ trips - lengthZ (assignments st) in
          Ok {| AssignmentResult.assignments := assignments st;
                AssignmentResult.warnings := warnings st;
                AssignmentResult.summary :=
                  "Assigned " +:+ pretty (lengthZ (assignments st)) +:+ " of "
                  +:+ pretty (lengthZ trips) +:+ " trips";
                AssignmentResult.distribution := distribution;
                AssignmentResult.stats :=
                  {| Stats.totalTrips := lengthZ trips;
                     Stats.assignedCount := lengthZ (assignments st);
                     Stats.unassignedCount := unassignedCount |} |}
      end
  end.

(** ** Observations of a run *)

(** The driver the body of the loop selects for a trip, if any. *)
Definition selectedDriverOf (driversByDay : gmap Z (list Driver.t))
    (st : Locals) (trip : Trip.t) : option Driver.t :=
  match availableDriversOf driversByDay (driverTimestamps st) trip with
  | [] => None
  | first :: rest => Some (fold_left (pickDriver (driverLoad st)) rest first)
  end.

(** The trips of a run in processing order, each with the driver selected
    for it. *)
Fixpoint decisions (driversByDay : gmap Z (list Driver.t))
    (st : Locals) (trips : list Trip.t) : list (Trip.t * option Driver.t) :=
  match trips with
  | [] => []
  | trip :: trips' =>
      (trip, selectedDriverOf driversByDay st trip) ::
      match processTrip driversByDay st trip with
      | Ok st' => decisions driversByDay st' trips'
      | Throw _ => []
      end
  end.

Definition runTrace (trips : list Trip.t) (drivers : list Driver.t)
    (existingAssignments : list ExistingAssignment.t)
  : list (Trip.t * option Driver.t) :=
  decisions (buildDriversByDay drivers)
            (initLocals drivers existingAssignments) trips.

(** Trip id and driver id of each assignment. *)
Definition pairsOf (l : list Assignment.t) : list (string * string) :=
  map (fun a => (Assignment.tripId a, Assignment.driverId a)) l.

Definition assignedPairs (tr : list (Trip.t * option Driver.t))
  : list (string * string) :=
  omap (fun '(t, od) => d ← od; Some (Trip.id t, Driver.id d)) tr.

Definition existingTimestamps (existingAssignments : list ExistingAssignment.t)
    (id : string) : list number :=
  omap (fun e => if String.eqb (ExistingAssignment.driverId e) id
                 then Some (getTimestamp (ExistingAssignment.tripDate e)
                              (ExistingAssignment.plannedArrivalTime e))
                 else None)
       existingAssignments.

Definition newTimestamps (tr : list (Trip.t * option Driver.t)) (id : string)
  : list number :=
  omap (fun '(t, od) =>
          match od with
          | Some d => if String.eqb (Driver.id d) id
                      then Some (tripTimestampOf t) else None
          | None => None
          end) tr.

(** The timestamps of a driver after a run: those of its pre-existing
    assignments, then those of its new assignments. *)
Definition allTimestamps (trips : list Trip.t) (drivers : list Driver.t)
    (existingAssignments : list ExistingAssignment.t) (id : string)
  : list number :=
  existingTimestamps existingAssignments id
  ++ newTimestamps (runTrace trips drivers existingAssignments) id.

(** Number of assignments of a driver. *)
Definition existingCount (existingAssignments : list ExistingAssignment.t)
    (id : string) : Z :=
  lengthZ (List.filter (fun e => String.eqb (ExistingAssignment.driverId e) id)
                       existingAssignments).

Definition newCount (l : list Assignment.t) (id : string) : Z :=
  lengthZ (List.filter (fun a => String.eqb (Assignment.driverId a) id) l).

(** Two timestamps at least [MIN_HOURS_BETWEEN_TRIPS] hours apart. *)
Definition separated (ts1 ts2 : number) : Prop :=
  forall t1 t2, ts1 = Some t1 -> ts2 = Some t2 ->
    MIN_HOURS_BETWEEN_TRIPS * Js.msPerHour <= Z.abs (t1 - t2).

(** One warning for each trip without a driver, in processing order; the
    warning starts with the label of its trip. *)
Inductive WarningsFor : list (Trip.t * option Driver.t) -> list string -> Prop :=
| WarningsFor_nil : WarningsFor [] []
| WarningsFor_assigned tr ws t d :
    WarningsFor tr ws -> WarningsFor (tr ++ [(t, Some d)]) ws
| WarningsFor_unassigned tr ws t rest :
    WarningsFor tr ws ->
    WarningsFor (tr ++ [(t, None)])
                (ws ++ ["Trip " +:+ Trip.tripId t +:+ ": " +:+ rest]).

(** The order of the selection, on the fields of the drivers: the
    priority value with 2 for an absent one, then the number of trips
    [count] gives for the driver's id, then the name. *)
Definition selectionLe (count : string -> Z) (a b : Driver.t) : Prop :=
  default 2 (Driver.priority a) < default 2 (Driver.priority b) \/
  (default 2 (Driver.priority a) = default 2 (Driver.priority b) /\
   (count (Driver.id a) < count (Driver.id b) \/
    (count (Driver.id a) = count (Driver.id b) /\
     localeCompare (Driver.name a) (Driver.name b) <= 0))).

Definition known (drivers : list Driver.t) (id : string) : bool :=
  bool_decide (id ∈ map Driver.id drivers).

(** What the variables hold once the trips of the trace [tr] have been
    processed. *)
Record StateInv (drivers : list Driver.t)
    (existingAssignments : list ExistingAssignment.t)
    (tr : list (Trip.t * option Driver.t)) (st : Locals) : Prop := {
  inv_timestamps : forall id,
    driverTimestamps st !! id =
      if known drivers id
      then Some (existingTimestamps existingAssignments id ++ newTimestamps tr id)
      else None;
  inv_load : forall id,
    driverLoad st !! id = (fun l => Some (lengthZ l)) <$> driverTimestamps st !! id;
  inv_pairs : pairsOf (assignments st) = assignedPairs tr;
  inv_warnings : WarningsFor tr (warnings st)
}.

Definition emptyResult : AssignmentResult.t :=
  {| AssignmentResult.assignments := [];
     AssignmentResult.warnings := [];
     AssignmentResult.summary := "No trips to assign";
     AssignmentResult.distribution := [];
     AssignmentResult.stats :=
       {| Stats.totalTrips := 0; Stats.assignedCount := 0;
          Stats.unassignedCount := 0 |} |}.

(** The hour of the planned time is before the night-shift cutoff. *)
Definition beforeCutoff (time : option string) : bool :=
  match parseTime time with
  | Some parsed => hours parsed <? NIGHT_SHIFT_CUTOFF_HOUR
  | None => false
  end.

(** The day before [dayOfWeek], Sunday (0) wrapping to Saturday (6). *)
Definition previousDay (dayOfWeek : Z) : Z := (dayOfWeek + 6) mod 7.

(** Pre-existing assignments of a driver plus new assignments of it. *)
Definition combinedCount (existingAssignments : list ExistingAssignment.t)
    (l : list Assignment.t) (id : string) : Z :=
  existingCount existingAssignments id + newCount l id.

Definition distributionEntry (existingAssignments : list ExistingAssignment.t)
    (l : list Assignment.t) (d : Driver.t) : DriverDistribution.t :=
  {| DriverDistribution.driverId := Driver.id d;
     DriverDistribution.driverName := Driver.name d;
     DriverDistribution.tripCount :=
       combinedCount existingAssignments l (Driver.id d) |}.

(** The same trip with no planned time. *)
Definition withoutTime (t : Trip.t) : Trip.t :=
  {| Trip.id := Trip.id t;
     Trip.tripId := Trip.tripId t;
     Trip.tripDate := Trip.tripDate t;
     Trip.dayOfWeek := Trip.dayOfWeek t;
     Trip.plannedArrivalTime := None |}.

(** Two states that differ in their warnings at most. *)
Definition sameButWarnings (st1 st2 : Locals) : Prop :=
  driverLoad st1 = driverLoad st2 /\
  driverTimestamps st1 = driverTimestamps st2 /\
  assignments st1 = assignments st2.

(** The warning of a trip whose candidate drivers all have a conflict, with
    the date as printed. *)
Definition conflictWarning (t : Trip.t) (dateStr : string) : string :=
  "Trip " +:+ Trip.tripId t +:+ ": All drivers have conflicting trips near "
  +:+ match Trip.plannedArrivalTime t with
      | None | Some EmptyString => "unknown time"
      | Some s => s
      end
  +:+ " on " +:+ dateStr.

(** Two trips that differ at most in planned times that parse alike. *)
Definition sameParse (t1 t2 : Trip.t) : Prop :=
  Trip.id t1 = Trip.id t2 /\
  Trip.tripId t1 = Trip.tripId t2 /\
  Trip.tripDate t1 = Trip.tripDate t2 /\
  Trip.dayOfWeek t1 = Trip.dayOfWeek t2 /\
  parseTime (Trip.plannedArrivalTime t1) = parseTime (Trip.plannedArrivalTime t2).

(** Two states with the same loads, assignments and warnings, whose
    timestamp lists are the same up to order. *)
Definition permuted (st1 st2 : Locals) : Prop :=
  driverLoad st1 = driverLoad st2 /\
  (forall id, option_Forall2 Permutation
                (driverTimestamps st1 !! id) (driverTimestamps st2 !! id)) /\
  assignments st1 = assignments st2 /\
  warnings st1 = warnings st2.

(** The minute, counted from the epoch, of a date and a planned time. *)
Definition minuteOfEpoch (t : Z) (time : option string) : Z :=
  Js.Day t * 1440 +
  match parseTime time with
  | Some parsed => hours parsed * 60 + minutes parsed
  | None => 0
  end.

Definition totalTripCount (l : list DriverDistribution.t) : Z :=
  foldr (fun e acc => DriverDistribution.tripCount e + acc) 0 l.

(** The order of the per-day lists, on the fields of the drivers: the
    priority value with 2 for an absent one, then the name. *)
Definition dayOrder (a b : Driver.t) : Prop :=
  default 2 (Driver.priority a) < default 2 (Driver.priority b) \/
  (default 2 (Driver.priority a) = default 2 (Driver.priority b) /\
   localeCompare (Driver.name a) (Driver.name b) <= 0).

(** The warning of a trip on whose effective day no driver works. *)
Definition noDriverWarning (t : Trip.t) : string :=
  "Trip " +:+ Trip.tripId t +:+ ": No driver available on "
  +:+ (if effectiveDayOf t =? Trip.dayOfWeek t
       then dayName (effectiveDayOf t)
       else dayName (effectiveDayOf t) +:+ " (night shift into "
            +:+ dayName (Trip.dayOfWeek t) +:+ ")").

(** ** Time helpers *)

Lemma parseTime_range time p :
  parseTime time = Some p ->
  0 <= hours p <= 23 /\ 0 <= minutes p <= 59.
Proof.
  unfold parseTime. intros H.
  destruct time as [s|]; [|discriminate].
  destruct s as [|c s]; [discriminate|].
  destruct (Js.split ":" (String c s)) as [|p0 [|p1 [|? ?]]]; try discriminate.
  destruct (Js.parseInt p0) as [h|]; [|discriminate].
  destruct (Js.parseInt p1) as [m|]; [|discriminate].
  destruct ((h <? 0) || (h >? 23)) eqn:Hh; [discriminate|].
  destruct ((m <? 0) || (m >? 59)) eqn:Hm; [discriminate|].
  inversion H; subst; simpl. lia.
Qed.

Lemma timestampsTooClose_true t1 t2 :
  timestampsTooClose (Some t1) (Some t2) = true <->
  Z.abs (t1 - t2) < MIN_HOURS_BETWEEN_TRIPS * Js.msPerHour.
Proof.
  unfold timestampsTooClose, MIN_HOURS_BETWEEN_TRIPS, Js.msPerHour.
  set (d := Z.abs (t1 - t2)).
  change (1000 * 60 * 60) with 3600000.
  unfold Qcompare, Qdiv, Qmult, Qinv, inject_Z; simpl.
  rewrite !Z.mul_1_r. change (3 * Z.pos (1 * 3600000)) with 10800000.
  destruct (Z.compare_spec d 10800000) as [H|H|H]; split; intros; try lia;
    try discriminate; reflexivity.
Qed.

Lemma timestampsTooClose_false ts1 ts2 :
  timestampsTooClose ts1 ts2 = false <-> separated ts1 ts2.
Proof.
  unfold separated. destruct ts1 as [t1|], ts2 as [t2|]; try (split; [intros; discriminate | reflexivity]).
  split.
  - intros H a b [= <-] [= <-].
    destruct (Z_lt_ge_dec (Z.abs (t1 - t2)) (MIN_HOURS_BETWEEN_TRIPS * Js.msPerHour)) as [Hlt|Hge]; [|lia].
    apply timestampsTooClose_true in Hlt. congruence.
  - intros H. destruct (timestampsTooClose (Some t1) (Some t2)) eqn:E; [|reflexivity].
    apply timestampsTooClose_true in E. specialize (H t1 t2 eq_refl eq_refl). lia.
Qed.

(** ** Sorting, the per-day lists, the selection *)

Lemma insert_Permutation {A} (cmp : A -> A -> Z) x (l : list A) :
  Permutation (Js.insert cmp x l) (x :: l).
Proof.
  induction l as [|y l IH]; simpl; [done|].
  destruct (cmp x y <=? 0); [done|].
  rewrite IH. apply perm_swap.
Qed.

Lemma sort_Permutation {A} (cmp : A -> A -> Z) (l : list A) :
  Permutation (Js.sort cmp l) l.
Proof.
  induction l as [|x l IH]; simpl; [done|].
  unfold Js.sort in *. simpl. rewrite insert_Permutation. by rewrite IH.
Qed.

Lemma sort_In {A} (cmp : A -> A -> Z) (l : list A) x :
  In x (Js.sort cmp l) <-> In x l.
Proof.
  split; apply Permutation_in; [|symmetry]; apply sort_Permutation.
Qed.

(** With a total and transitive comparator the result is sorted. *)
Lemma insert_StronglySorted {A} (cmp : A -> A -> Z) x (l : list A) :
  (forall a b, 0 < cmp a b -> cmp b a <= 0) ->
  (forall a b c, cmp a b <= 0 -> cmp b c <= 0 -> cmp a c <= 0) ->
  StronglySorted (fun a b => cmp a b <= 0) l ->
  StronglySorted (fun a b => cmp a b <= 0) (Js.insert cmp x l).
Proof.
  intros Htotal Htrans. induction 1 as [|y l Hl IH Hy]; simpl.
  - repeat constructor.
  - destruct (Z.leb_spec (cmp x y) 0) as [Hle|Hgt].
    + constructor; [by constructor|].
      constructor; [done|].
      eapply Forall_impl; [exact Hy|]. intros z Hz. by eapply Htrans.
    + constructor; [done|].
      eapply Permutation_Forall; [symmetry; apply insert_Permutation|].
      constructor; [by apply Htotal|done].
Qed.

Lemma sort_StronglySorted {A} (cmp : A -> A -> Z) (l : list A) :
  (forall a b, 0 < cmp a b -> cmp b a <= 0) ->
  (forall a b c, cmp a b <= 0 -> cmp b c <= 0 -> cmp a c <= 0) ->
  StronglySorted (fun a b => cmp a b <= 0) (Js.sort cmp l).
Proof.
  intros Htotal Htrans. induction l as [|x l IH]; [constructor|].
  unfold Js.sort in *. simpl. by apply insert_StronglySorted.
Qed.

Lemma availableOn_In day d :
  availableOn day d = true <-> In day (Driver.availability d).
Proof.
  unfold availableOn. rewrite existsb_exists. split.
  - intros (a & Ha & ->%Z.eqb_eq). done.
  - intros H. exists day. split; [done|]. apply Z.eqb_refl.
Qed.

Lemma buildDriversByDay_lookup drivers day :
  buildDriversByDay drivers !! day =
    if (0 <=? day) && (day <? 7) then Some (dayDriversFor drivers day) else None.
Proof.
  unfold buildDriversByDay.
  change (seqZ 0 7) with [0; 1; 2; 3; 4; 5; 6]. simpl.
  repeat match goal with
    | |- <[?k := _]> _ !! day = _ =>
        destruct (decide (k = day)) as [<-|?];
        [by rewrite lookup_insert_eq | rewrite lookup_insert_ne by done]
    end.
  rewrite lookup_empty.
  destruct (Z.leb_spec 0 day), (Z.ltb_spec day 7); simpl; try done. lia.
Qed.

Lemma dayDriversOf_In drivers trip d :
  In d (dayDriversOf (buildDriversByDay drivers) trip) <->
  0 <= effectiveDayOf trip <= 6 /\ In d drivers /\
  In (effectiveDayOf trip) (Driver.availability d).
Proof.
  unfold dayDriversOf. rewrite buildDriversByDay_lookup.
  destruct (Z.leb_spec 0 (effectiveDayOf trip)), (Z.ltb_spec (effectiveDayOf trip) 7);
    simpl; try (split; [done | lia]).
  unfold dayDriversFor. rewrite sort_In, filter_In, availableOn_In.
  intuition lia.
Qed.

Lemma hasConflict_false ts tripTimestamp driver :
  hasConflict ts tripTimestamp driver = false <->
  forall assignedTs, In assignedTs (timestampsOf ts (Driver.id driver)) ->
                     separated assignedTs tripTimestamp.
Proof.
  unfold hasConflict. split.
  - intros H a Ha. apply timestampsTooClose_false.
    destruct (timestampsTooClose a tripTimestamp) eqn:E; [|done].
    assert (existsb (fun assignedTs => timestampsTooClose assignedTs tripTimestamp)
              (timestampsOf ts (Driver.id driver)) = true) as Hex
      by (apply existsb_exists; eauto).
    congruence.
  - intros H.
    destruct (existsb _ _) eqn:E; [|done].
    apply existsb_exists in E as (a & Ha & Hclose).
    apply H, timestampsTooClose_false in Ha. congruence.
Qed.

Lemma availableDriversOf_In dbd ts trip d :
  In d (availableDriversOf dbd ts trip) <->
  In d (dayDriversOf dbd trip) /\
  forall assignedTs, In assignedTs (timestampsOf ts (Driver.id d)) ->
                     separated assignedTs (tripTimestampOf trip).
Proof.
  unfold availableDriversOf. rewrite filter_In, negb_true_iff, hasConflict_false.
  done.
Qed.

Lemma pickDriver_cases load bestDriver driver :
  pickDriver load bestDriver driver = bestDriver \/
  pickDriver load bestDriver driver = driver.
Proof.
  unfold pickDriver.
  repeat match goal with |- context [if ?c then _ else _] => destruct c end; auto.
Qed.

Lemma reduce_pickDriver_In load rest first :
  In (fold_left (pickDriver load) rest first) (first :: rest).
Proof.
  revert first. induction rest as [|d rest IH]; intros first; [by left|].
  change (fold_left (pickDriver load) (d :: rest) first)
    with (fold_left (pickDriver load) rest (pickDriver load first d)).
  destruct (IH (pickDriver load first d)) as [H|H].
  - destruct (pickDriver_cases load first d) as [E|E]; rewrite E in *.
    + by left.
    + right. by left.
  - right. by right.
Qed.

Lemma selectedDriverOf_Some dbd st trip d :
  selectedDriverOf dbd st trip = Some d ->
  In d (availableDriversOf dbd (driverTimestamps st) trip).
Proof.
  unfold selectedDriverOf.
  destruct (availableDriversOf dbd (driverTimestamps st) trip) as [|first rest];
    [discriminate|].
  intros [= <-]. apply reduce_pickDriver_In.
Qed.

(** ** The state of a run *)

Section Run.
Variable drivers : list Driver.t.
Variable existingAssignments : list ExistingAssignment.t.

Lemma initDriver_fold (l : list Driver.t) (st : Locals) :
  let st' := foldl initDriver st l in
  (forall id, driverTimestamps st' !! id =
     if bool_decide (id ∈ map Driver.id l) then Some []
     else driverTimestamps st !! id) /\
  (forall id, driverLoad st' !! id =
     if bool_decide (id ∈ map Driver.id l) then Some (Some 0)
     else driverLoad st !! id) /\
  assignments st' = assignments st /\ warnings st' = warnings st.
Proof.
  revert st. induction l as [|d l IH]; intros st; simpl.
  - repeat split.
  - destruct (IH (initDriver st d)) as (Hts & Hload & Ha & Hw).
    repeat split; [| |exact Ha|exact Hw]; intros id.
    + rewrite Hts. simpl.
      destruct (decide (id ∈ map Driver.id l)) as [Hin|Hin].
      * rewrite !bool_decide_eq_true_2; [done| |done]. by right.
      * rewrite (bool_decide_eq_false_2 _ Hin).
        destruct (decide (Driver.id d = id)) as [->|Hne].
        -- rewrite lookup_insert_eq, bool_decide_eq_true_2; [done|]. by left.
        -- rewrite lookup_insert_ne by done.
           rewrite bool_decide_eq_false_2; [done|].
           intros [?|?]%elem_of_cons; congruence.
    + rewrite Hload. simpl.
      destruct (decide (id ∈ map Driver.id l)) as [Hin|Hin].
      * rewrite !bool_decide_eq_true_2; [done| |done]. by right.
      * rewrite (bool_decide_eq_false_2 _ Hin).
        destruct (decide (Driver.id d = id)) as [->|Hne].
        -- rewrite lookup_insert_eq, bool_decide_eq_true_2; [done|]. by left.
        -- rewrite lookup_insert_ne by done.
           rewrite bool_decide_eq_false_2; [done|].
           intros [?|?]%elem_of_cons; congruence.
Qed.

Lemma existingTimestamps_snoc ex e id :
  existingTimestamps (ex ++ [e]) id =
  existingTimestamps ex id ++
    (if String.eqb (ExistingAssignment.driverId e) id
     then [getTimestamp (ExistingAssignment.tripDate e)
             (ExistingAssignment.plannedArrivalTime e)]
     else []).
Proof.
  unfold existingTimestamps. rewrite omap_app. simpl.
  by destruct (String.eqb _ _).
Qed.

Lemma lengthZ_snoc {A} (l : list A) x : lengthZ (l ++ [x]) = lengthZ l + 1.
Proof. unfold lengthZ. rewrite length_app. simpl. lia. Qed.

Lemma loadOf_inv (st : Locals) id :
  (forall id, driverLoad st !! id =
              (fun l => Some (lengthZ l)) <$> driverTimestamps st !! id) ->
  loadOf (driverLoad st) id = lengthZ (timestampsOf (driverTimestamps st) id).
Proof.
  intros H. unfold loadOf, timestampsOf. rewrite H.
  by destruct (driverTimestamps st !! id).
Qed.

(** The state after the two initial loops, for any list in place of the
    existing assignments. *)
Lemma addExisting_fold (ex : list ExistingAssignment.t) :
  let st := foldl addExisting (foldl initDriver emptyLocals drivers) ex in
  (forall id, driverTimestamps st !! id =
     if known drivers id then Some (existingTimestamps ex id) else None) /\
  (forall id, driverLoad st !! id =
     (fun l => Some (lengthZ l)) <$> driverTimestamps st !! id) /\
  assignments st = [] /\ warnings st = [].
Proof.
  induction ex as [|e ex IH] using rev_ind.
  - simpl. destruct (initDriver_fold drivers emptyLocals) as (Hts & Hload & Ha & Hw).
    repeat split; [| |exact Ha|exact Hw]; intros id.
    + rewrite Hts. unfold known. simpl. rewrite lookup_empty.
      by destruct (bool_decide _).
    + rewrite Hload, Hts. simpl. rewrite !lookup_empty.
      by destruct (bool_decide _).
  - rewrite foldl_snoc. simpl in IH |- *.
    set (st := foldl addExisting (foldl initDriver emptyLocals drivers) ex) in *.
    destruct IH as (Hts & Hload & Ha & Hw).
    unfold addExisting.
    set (eid := ExistingAssignment.driverId e).
    destruct (driverTimestamps st !! eid) as [timestamps|] eqn:Hget; simpl.
    + repeat split; [| |exact Ha|exact Hw]; intros id.
      * rewrite existingTimestamps_snoc. fold eid.
        destruct (String.eqb_spec eid id) as [<-|Hne].
        -- rewrite lookup_insert_eq. rewrite Hts in Hget.
           destruct (known drivers eid); [|discriminate]. congruence.
        -- rewrite lookup_insert_ne by done. rewrite Hts, app_nil_r. done.
      * destruct (decide (eid = id)) as [<-|Hne].
        -- rewrite !lookup_insert_eq. simpl. rewrite lengthZ_snoc.
           rewrite (loadOf_inv st eid Hload). unfold timestampsOf.
           by rewrite Hget.
        -- rewrite !lookup_insert_ne by done. apply Hload.
    + repeat split; [| |exact Ha|exact Hw]; intros id.
      * rewrite existingTimestamps_snoc. fold eid.
        destruct (String.eqb_spec eid id) as [<-|Hne].
        -- rewrite Hts in Hget |- *. by destruct (known drivers eid).
        -- rewrite Hts, app_nil_r. done.
      * apply Hload.
Qed.

Lemma initLocals_inv : StateInv drivers existingAssignments [] (initLocals drivers existingAssignments).
Proof.
  destruct (addExisting_fold existingAssignments) as (Hts & Hload & Ha & Hw).
  split.
  - intros id. unfold initLocals. rewrite Hts. simpl. by rewrite app_nil_r.
  - exact Hload.
  - unfold initLocals. by rewrite Ha.
  - unfold initLocals. rewrite Hw. constructor.
Qed.

(** *** One trip *)

Lemma newTimestamps_snoc tr t od id :
  newTimestamps (tr ++ [(t, od)]) id =
  newTimestamps tr id ++
    match od with
    | Some d => if String.eqb (Driver.id d) id then [tripTimestampOf t] else []
    | None => []
    end.
Proof.
  unfold newTimestamps. rewrite omap_app. simpl.
  destruct od as [d|]; [|done]. by destruct (String.eqb _ _).
Qed.

Lemma assignedPairs_snoc tr t od :
  assignedPairs (tr ++ [(t, od)]) =
  assignedPairs tr ++
    match od with
    | Some d => [(Trip.id t, Driver.id d)]
    | None => []
    end.
Proof.
  unfold assignedPairs. rewrite omap_app. simpl. by destruct od.
Qed.

Lemma getTimestamp_invalid time : getTimestamp NaN time = NaN.
Proof. unfold getTimestamp. by destruct (parseTime time). Qed.

(** A driver of the day list with a conflict: the date of the trip is a
    valid one. *)
Lemma conflict_valid_date ts trip d :
  hasConflict ts (tripTimestampOf trip) d = true ->
  exists t, Trip.tripDate trip = Some t.
Proof.
  unfold hasConflict. rewrite existsb_exists. intros (a & _ & Hclose).
  unfold tripTimestampOf in Hclose.
  destruct (Trip.tripDate trip) as [t|]; [by exists t|].
  rewrite getTimestamp_invalid in Hclose. by destruct a.
Qed.

Lemma known_driver d : In d drivers -> known drivers (Driver.id d) = true.
Proof.
  intros H. apply bool_decide_eq_true_2, list_elem_of_In, in_map, H.
Qed.

Let dbd := buildDriversByDay drivers.

Lemma processTrip_inv tr st trip :
  StateInv drivers existingAssignments tr st ->
  exists st', processTrip dbd st trip = Ok st' /\
              StateInv drivers existingAssignments (tr ++ [(trip, selectedDriverOf dbd st trip)]) st'.
Proof.
  intros [Hts Hload Hpairs Hwarn].
  unfold processTrip, selectedDriverOf.
  destruct (availableDriversOf dbd (driverTimestamps st) trip)
    as [|first rest] eqn:Havail.
  - (* no driver: a warning *)
    destruct (dayDriversOf dbd trip) as [|d0 ds] eqn:Hday.
    + eexists. split; [reflexivity|].
      split; simpl.
      * intros id. by rewrite Hts, newTimestamps_snoc, app_nil_r.
      * exact Hload.
      * by rewrite assignedPairs_snoc, app_nil_r.
      * apply (WarningsFor_unassigned tr (warnings st) trip
                 ("No driver available on " +:+ _)), Hwarn.
    + assert (hasConflict (driverTimestamps st) (tripTimestampOf trip) d0 = true)
        as Hconf.
      { destruct (hasConflict (driverTimestamps st) (tripTimestampOf trip) d0)
          eqn:E; [done|].
        unfold availableDriversOf in Havail. rewrite Hday in Havail.
        simpl in Havail. rewrite E in Havail. discriminate. }
      apply conflict_valid_date in Hconf as [t Hdate].
      rewrite Hdate. simpl.
      destruct (Js.civil (Js.Day t)) as [[y m] dd].
      eexists. split; [reflexivity|].
      split; simpl.
      * intros id. by rewrite Hts, newTimestamps_snoc, app_nil_r.
      * exact Hload.
      * by rewrite assignedPairs_snoc, app_nil_r.
      * apply (WarningsFor_unassigned tr (warnings st) trip
                 ("All drivers have conflicting trips near " +:+ _)), Hwarn.
  - (* a driver is selected *)
    set (selectedDriver := fold_left (pickDriver (driverLoad st)) rest first).
    assert (In selectedDriver drivers) as Hin.
    { pose proof (reduce_pickDriver_In (driverLoad st) rest first) as H.
      rewrite <- Havail in H.
      apply availableDriversOf_In in H as [H _].
      by apply dayDriversOf_In in H as (_ & H & _). }
    pose proof (Hts (Driver.id selectedDriver)) as Hsel.
    rewrite (known_driver _ Hin) in Hsel. rewrite Hsel.
    eexists. split; [reflexivity|].
    split; simpl.
    + intros id. rewrite newTimestamps_snoc.
      destruct (String.eqb_spec (Driver.id selectedDriver) id) as [<-|Hne].
      * rewrite lookup_insert_eq, (known_driver _ Hin). by rewrite app_assoc.
      * rewrite lookup_insert_ne by done. by rewrite Hts, app_nil_r.
    + intros id.
      destruct (decide (Driver.id selectedDriver = id)) as [<-|Hne].
      * rewrite !lookup_insert_eq. rewrite Hload, Hsel. simpl.
        by rewrite lengthZ_snoc.
      * rewrite !lookup_insert_ne by done. apply Hload.
    + unfold pairsOf in *. rewrite map_app, Hpairs, assignedPairs_snoc. done.
    + by apply WarningsFor_assigned.
Qed.

(** *** The loop *)

Lemma processTrips_inv trips tr st :
  StateInv drivers existingAssignments tr st ->
  exists st', processTrips dbd st trips = Ok st' /\
              StateInv drivers existingAssignments (tr ++ decisions dbd st trips) st'.
Proof.
  revert tr st. induction trips as [|trip trips IH]; intros tr st Hinv; simpl.
  - exists st. by rewrite app_nil_r.
  - destruct (processTrip_inv tr st trip Hinv) as (st1 & Hstep & Hinv1).
    rewrite Hstep. simpl.
    destruct (IH _ _ Hinv1) as (st' & Hrun & Hinv').
    exists st'. split; [done|]. by rewrite <- app_assoc in Hinv'.
Qed.

(** The state in which the trip at position [j] is processed. *)
Lemma decisions_lookup trips tr st j t od :
  StateInv drivers existingAssignments tr st ->
  decisions dbd st trips !! j = Some (t, od) ->
  exists st', processTrips dbd st (take j trips) = Ok st' /\
              StateInv drivers existingAssignments (tr ++ take j (decisions dbd st trips)) st' /\
              trips !! j = Some t /\
              od = selectedDriverOf dbd st' t.
Proof.
  revert tr st j. induction trips as [|trip trips IH]; intros tr st j Hinv Hj;
    [by destruct j|].
  destruct j as [|j].
  - simpl in *. injection Hj as <- <-.
    exists st. by rewrite app_nil_r.
  - destruct (processTrip_inv tr st trip Hinv) as (st1 & Hstep & Hinv1).
    simpl in *. rewrite Hstep in *. simpl.
    destruct (IH _ _ _ Hinv1 Hj) as (st' & Hrun & Hinv' & Hlook & Hod).
    exists st'. by rewrite <- app_assoc in Hinv'.
Qed.

Lemma decisions_length trips tr st :
  StateInv drivers existingAssignments tr st -> length (decisions dbd st trips) = length trips.
Proof.
  revert tr st. induction trips as [|trip trips IH]; intros tr st Hinv; [done|].
  destruct (processTrip_inv tr st trip Hinv) as (st1 & Hstep & Hinv1).
  simpl. rewrite Hstep. f_equal. by eapply IH.
Qed.

Lemma decisions_trips trips tr st j t :
  StateInv drivers existingAssignments tr st ->
  trips !! j = Some t ->
  exists od, decisions dbd st trips !! j = Some (t, od).
Proof.
  revert tr st j. induction trips as [|trip trips IH]; intros tr st j Hinv Hj;
    [by destruct j|].
  destruct j as [|j].
  - simpl in *. injection Hj as <-. eauto.
  - destruct (processTrip_inv tr st trip Hinv) as (st1 & Hstep & Hinv1).
    simpl in *. rewrite Hstep. by eapply IH.
Qed.

End Run.

(** ** Runs of [assignTripsToDrivers] *)

Lemma run_main trips drivers existingAssignments :
  exists st,
    processTrips (buildDriversByDay drivers)
      (initLocals drivers existingAssignments) trips = Ok st /\
    StateInv drivers existingAssignments
      (runTrace trips drivers existingAssignments) st.
Proof.
  destruct (processTrips_inv drivers existingAssignments trips [] _
              (initLocals_inv drivers existingAssignments)) as (st & Hrun & Hinv).
  exists st. split; [exact Hrun|exact Hinv].
Qed.

Lemma runTrace_lookup trips drivers existingAssignments j t od :
  runTrace trips drivers existingAssignments !! j = Some (t, od) ->
  exists st,
    processTrips (buildDriversByDay drivers)
      (initLocals drivers existingAssignments) (take j trips) = Ok st /\
    StateInv drivers existingAssignments
      (take j (runTrace trips drivers existingAssignments)) st /\
    trips !! j = Some t /\
    od = selectedDriverOf (buildDriversByDay drivers) st t.
Proof.
  intros H.
  destruct (decisions_lookup drivers existingAssignments trips [] _ j t od
              (initLocals_inv drivers existingAssignments) H)
    as (st & Hrun & Hinv & Hj & Hod).
  exists st. split; [exact Hrun|]. split; [exact Hinv|]. split; assumption.
Qed.

Lemma runTrace_selected trips drivers existingAssignments j t d :
  runTrace trips drivers existingAssignments !! j = Some (t, Some d) ->
  0 <= effectiveDayOf t <= 6 /\ In d drivers /\
  In (effectiveDayOf t) (Driver.availability d).
Proof.
  intros H. apply runTrace_lookup in H as (st & _ & _ & _ & Hsel).
  symmetry in Hsel. apply selectedDriverOf_Some in Hsel.
  apply availableDriversOf_In in Hsel as [Hday _].
  by apply dayDriversOf_In in Hday.
Qed.

Lemma assignedPairs_none tr :
  (forall j t od, tr !! j = Some (t, od) -> od = None) ->
  assignedPairs tr = [].
Proof.
  induction tr as [|[t od] tr IH]; intros H; [done|].
  unfold assignedPairs in *. simpl.
  rewrite (H 0%nat t od eq_refl). simpl.
  apply IH. intros j t' od' Hj. by apply (H (S j) t' od').
Qed.

Lemma omap_length_le {A B} (f : A -> option B) (l : list A) :
  (length (omap f l) <= length l)%nat.
Proof.
  induction l as [|x l IH]; [done|].
  change (omap f (x :: l))
    with (match f x with Some y => y :: omap f l | None => omap f l end).
  destruct (f x); simpl; lia.
Qed.

Lemma assignedPairs_length tr :
  (length (assignedPairs tr) <= length tr)%nat.
Proof. apply omap_length_le. Qed.

(** The three ways [assignTripsToDrivers] returns. *)
Lemma assignTripsToDrivers_cases trips drivers existingAssignments :
  (trips = [] /\
   assignTripsToDrivers trips drivers existingAssignments = Ok emptyResult) \/
  (trips <> [] /\ drivers = [] /\
   assignTripsToDrivers trips drivers existingAssignments =
     Ok {| AssignmentResult.assignments := [];
           AssignmentResult.warnings := ["No active drivers available"];
           AssignmentResult.summary := "Assignment failed: No drivers";
           AssignmentResult.distribution := [];
           AssignmentResult.stats :=
             {| Stats.totalTrips := lengthZ trips; Stats.assignedCount := 0;
                Stats.unassignedCount := lengthZ trips |} |}) \/
  (trips <> [] /\ drivers <> [] /\
   exists st,
     StateInv drivers existingAssignments
       (runTrace trips drivers existingAssignments) st /\
     assignTripsToDrivers trips drivers existingAssignments =
       Ok {| AssignmentResult.assignments := assignments st;
             AssignmentResult.warnings := warnings st;
             AssignmentResult.summary :=
               "Assigned " +:+ pretty (lengthZ (assignments st)) +:+ " of "
               +:+ pretty (lengthZ trips) +:+ " trips";
             AssignmentResult.distribution :=
               buildDistribution drivers (driverLoad st);
             AssignmentResult.stats :=
               {| Stats.totalTrips := lengthZ trips;
                  Stats.assignedCount := lengthZ (assignments st);
                  Stats.unassignedCount :=
                    lengthZ trips - lengthZ (assignments st) |} |}).
Proof.
  destruct trips as [|trip trips]; [by left|].
  destruct drivers as [|driver drivers]; [right; by left|].
  right; right. split; [done|]. split; [done|].
  destruct (run_main (trip :: trips) (driver :: drivers) existingAssignments)
    as (st & Hrun & Hinv).
  exists st. split; [exact Hinv|].
  unfold assignTripsToDrivers. by rewrite Hrun.
Qed.

(** Case analysis on the way the call returns: [Hr] is the result, [st] the
    final state and [Hinv] its invariant in the third case. *)
Ltac run_cases trips drivers existing st Hinv Hr :=
  destruct (assignTripsToDrivers_cases trips drivers existing)
    as [(-> & Hr)|[(_ & -> & Hr)|(_ & _ & st & Hinv & Hr)]].

(** The call returns, and its assignments are those of the trace. *)
Lemma assignTripsToDrivers_pairs trips drivers existingAssignments :
  exists r,
    assignTripsToDrivers trips drivers existingAssignments = Ok r /\
    pairsOf (AssignmentResult.assignments r) =
      assignedPairs (runTrace trips drivers existingAssignments).
Proof.
  run_cases trips drivers existingAssignments st Hinv Hr;
    eexists; (split; [exact Hr|]); simpl.
  - done.
  - symmetry. apply assignedPairs_none. intros j t [d|] Hj; [|done].
    by apply runTrace_selected in Hj as (_ & [] & _).
  - apply Hinv.
Qed.

Lemma separated_sym ts1 ts2 : separated ts1 ts2 -> separated ts2 ts1.
Proof.
  intros H t2 t1 H2 H1. specialize (H t1 t2 H1 H2). lia.
Qed.

Lemma In_existingTimestamps existingAssignments e :
  In e existingAssignments ->
  In (getTimestamp (ExistingAssignment.tripDate e)
        (ExistingAssignment.plannedArrivalTime e))
     (existingTimestamps existingAssignments (ExistingAssignment.driverId e)).
Proof.
  intros H. apply list_elem_of_In, list_elem_of_omap.
  exists e. split; [by apply list_elem_of_In|].
  by rewrite String.eqb_refl.
Qed.

Lemma In_newTimestamps (tr : list (Trip.t * option Driver.t)) i t d :
  tr !! i = Some (t, Some d) ->
  In (tripTimestampOf t) (newTimestamps tr (Driver.id d)).
Proof.
  intros H. apply list_elem_of_In, list_elem_of_omap.
  exists (t, Some d). split; [by eapply list_elem_of_lookup_2|].
  by rewrite String.eqb_refl.
Qed.

(** The trip at position [j] is separated from whatever its driver holds
    when it is processed. *)
Lemma selected_separated trips drivers existingAssignments j tj dj :
  runTrace trips drivers existingAssignments !! j = Some (tj, Some dj) ->
  forall ts,
    In ts (existingTimestamps existingAssignments (Driver.id dj)
           ++ newTimestamps (take j (runTrace trips drivers existingAssignments))
                (Driver.id dj)) ->
    separated ts (tripTimestampOf tj).
Proof.
  intros Hj ts Hts.
  pose proof (runTrace_selected _ _ _ _ _ _ Hj) as (_ & Hin & _).
  apply runTrace_lookup in Hj as (st & _ & Hinv & _ & Hsel).
  symmetry in Hsel. apply selectedDriverOf_Some in Hsel.
  apply availableDriversOf_In in Hsel as [_ Hsep].
  apply Hsep. unfold timestampsOf.
  rewrite (inv_timestamps _ _ _ _ Hinv), (known_driver _ _ Hin). exact Hts.
Qed.

(** ** Properties of the result *)

(** Claim C1, as amended.  The call returns, and every new assignment is
    at least [MIN_HOURS_BETWEEN_TRIPS] hours away from every pre-existing
    assignment of its driver and from every other new assignment of its
    driver; a distance of exactly three hours is allowed.  Two
    pre-existing assignments of one driver are not compared. *)
Theorem new_assignments_separated trips drivers existingAssignments :
  exists r,
    assignTripsToDrivers trips drivers existingAssignments = Ok r /\
    pairsOf (AssignmentResult.assignments r) =
      assignedPairs (runTrace trips drivers existingAssignments) /\
    forall j tj dj,
      runTrace trips drivers existingAssignments !! j = Some (tj, Some dj) ->
      (forall e, In e existingAssignments ->
                 ExistingAssignment.driverId e = Driver.id dj ->
                 separated (getTimestamp (ExistingAssignment.tripDate e)
                              (ExistingAssignment.plannedArrivalTime e))
                           (tripTimestampOf tj)) /\
      (forall i ti di,
          i <> j ->
          runTrace trips drivers existingAssignments !! i = Some (ti, Some di) ->
          Driver.id di = Driver.id dj ->
          separated (tripTimestampOf ti) (tripTimestampOf tj)).
Proof.
  destruct (assignTripsToDrivers_pairs trips drivers existingAssignments)
    as (r & Hr & Hpairs).
  exists r. split; [exact Hr|]. split; [exact Hpairs|].
  assert (forall i j ti di tj dj,
             (i < j)%nat ->
             runTrace trips drivers existingAssignments !! i = Some (ti, Some di) ->
             runTrace trips drivers existingAssignments !! j = Some (tj, Some dj) ->
             Driver.id di = Driver.id dj ->
             separated (tripTimestampOf ti) (tripTimestampOf tj)) as Hlt.
  { intros i j ti di tj dj Hij Hi Hj Hid.
    apply (selected_separated _ _ _ _ _ _ Hj).
    apply in_or_app. right. rewrite <- Hid.
    apply (In_newTimestamps _ i). by rewrite lookup_take_lt. }
  intros j tj dj Hj. split.
  - intros e He Hid.
    apply (selected_separated _ _ _ _ _ _ Hj).
    apply in_or_app. left. rewrite <- Hid. by apply In_existingTimestamps.
  - intros i ti di Hne Hi Hid.
    destruct (Nat.lt_total i j) as [Hij|[->|Hji]]; [|done|].
    + by eapply Hlt.
    + apply separated_sym. by eapply Hlt.
Qed.

(** Claim C2.  The call returns, and the driver selected for a trip is an
    input driver whose availability contains the effective day of the
    trip: the previous day when the planned time is valid with an hour
    before the cutoff, the day of the trip otherwise. *)
Theorem assigned_driver_available trips drivers existingAssignments :
  exists r,
    assignTripsToDrivers trips drivers existingAssignments = Ok r /\
    pairsOf (AssignmentResult.assignments r) =
      assignedPairs (runTrace trips drivers existingAssignments) /\
    forall j t d,
      runTrace trips drivers existingAssignments !! j = Some (t, Some d) ->
      In d drivers /\
      In (effectiveDayOf t) (Driver.availability d) /\
      effectiveDayOf t =
        (if beforeCutoff (Trip.plannedArrivalTime t)
         then previousDay (Trip.dayOfWeek t)
         else Trip.dayOfWeek t).
Proof.
  destruct (assignTripsToDrivers_pairs trips drivers existingAssignments)
    as (r & Hr & Hpairs).
  exists r. split; [exact Hr|]. split; [exact Hpairs|].
  intros j t d Hj.
  apply runTrace_selected in Hj as (Hrange & Hin & Havail).
  split; [exact Hin|]. split; [exact Havail|].
  revert Hrange. unfold effectiveDayOf, getEffectiveDayOfWeek, beforeCutoff.
  destruct (parseTime (Trip.plannedArrivalTime t)) as [parsed|]; [|done].
  unfold previousDay, NIGHT_SHIFT_CUTOFF_HOUR.
  destruct (Z.geb_spec (hours parsed) 5), (Z.ltb_spec (hours parsed) 5);
    try lia.
  destruct (Z.eqb_spec (Trip.dayOfWeek t) 0) as [->|Hne]; [done|].
  intros Hrange.
  replace (Trip.dayOfWeek t + 6) with (Trip.dayOfWeek t - 1 + 1 * 7) by lia.
  rewrite Z.mod_add by lia. rewrite Z.mod_small; lia.
Qed.

(** Claim C4.  The call returns; the total is the number of input trips,
    the assigned count is the number of returned assignments, the two
    counts add up to the total, and none is negative. *)
Theorem stats_consistent trips drivers existingAssignments :
  exists r,
    assignTripsToDrivers trips drivers existingAssignments = Ok r /\
    Stats.totalTrips (AssignmentResult.stats r) = lengthZ trips /\
    Stats.assignedCount (AssignmentResult.stats r) =
      lengthZ (AssignmentResult.assignments r) /\
    Stats.assignedCount (AssignmentResult.stats r)
      + Stats.unassignedCount (AssignmentResult.stats r)
      = Stats.totalTrips (AssignmentResult.stats r) /\
    0 <= Stats.unassignedCount (AssignmentResult.stats r).
Proof.
  run_cases trips drivers existingAssignments st Hinv Hr;
    eexists; (split; [exact Hr|]); simpl; unfold lengthZ.
  - done.
  - simpl. lia.
  - repeat split; try lia.
    pose proof (assignedPairs_length (runTrace trips drivers existingAssignments)).
    rewrite <- (inv_pairs _ _ _ _ Hinv) in H. unfold pairsOf in H.
    rewrite length_map in H.
    unfold runTrace in H.
    rewrite (decisions_length drivers existingAssignments trips [] _
               (initLocals_inv drivers existingAssignments)) in H.
    lia.
Qed.

(** Claim C10.  Without trips the result is the fixed empty one, whatever
    the drivers and the existing assignments are; with no driver either,
    no warning is given. *)
Theorem no_trips_result drivers existingAssignments :
  assignTripsToDrivers [] drivers existingAssignments =
    Ok {| AssignmentResult.assignments := [];
          AssignmentResult.warnings := [];
          AssignmentResult.summary := "No trips to assign";
          AssignmentResult.distribution := [];
          AssignmentResult.stats :=
            {| Stats.totalTrips := 0; Stats.assignedCount := 0;
               Stats.unassignedCount := 0 |} |} /\
  assignTripsToDrivers [] [] existingAssignments = Ok emptyResult.
Proof. split; reflexivity. Qed.

(** *** Warnings *)

Lemma WarningsFor_length tr ws :
  WarningsFor tr ws ->
  (length ws + length (assignedPairs tr) = length tr)%nat.
Proof.
  induction 1 as [|tr ws t d _ IH|tr ws t rest _ IH]; [done| |];
    rewrite assignedPairs_snoc, !length_app; simpl; lia.
Qed.

(** Claim C5, as amended.  With at least one driver the call returns, the
    warnings are one for each trip without a selected driver, in
    processing order, each starting with the label of its trip, and
    their number is the unassigned count. *)
Theorem warnings_one_per_unassigned_trip trips drivers existingAssignments :
  drivers <> [] ->
  exists r,
    assignTripsToDrivers trips drivers existingAssignments = Ok r /\
    pairsOf (AssignmentResult.assignments r) =
      assignedPairs (runTrace trips drivers existingAssignments) /\
    WarningsFor (runTrace trips drivers existingAssignments)
                (AssignmentResult.warnings r) /\
    lengthZ (AssignmentResult.warnings r) =
      Stats.unassignedCount (AssignmentResult.stats r).
Proof.
  intros Hdrivers.
  run_cases trips drivers existingAssignments st Hinv Hr; [|done|];
    eexists; (split; [exact Hr|]); simpl.
  - split; [done|]. split; [constructor|done].
  - destruct Hinv as [_ _ Hpairs Hwarn].
    split; [exact Hpairs|]. split; [exact Hwarn|].
    apply WarningsFor_length in Hwarn.
    rewrite <- Hpairs in Hwarn. unfold pairsOf in Hwarn.
    rewrite length_map in Hwarn.
    unfold runTrace in Hwarn.
    rewrite (decisions_length drivers existingAssignments trips [] _
               (initLocals_inv drivers existingAssignments)) in Hwarn.
    unfold lengthZ. lia.
Qed.

(** *** Distribution *)

Lemma existingTimestamps_length existingAssignments id :
  lengthZ (existingTimestamps existingAssignments id) =
  existingCount existingAssignments id.
Proof.
  unfold existingCount, existingTimestamps, lengthZ. f_equal.
  induction existingAssignments as [|e l IH]; [done|].
  change (omap ?f (e :: l))
    with (match f e with Some y => y :: omap f l | None => omap f l end).
  simpl. destruct (String.eqb _ _); simpl; by rewrite IH.
Qed.

Lemma newTimestamps_length tr l id :
  pairsOf l = assignedPairs tr ->
  lengthZ (newTimestamps tr id) = newCount l id.
Proof.
  unfold newCount, lengthZ. intros H. f_equal.
  transitivity (length (List.filter (fun p => String.eqb (snd p) id) (pairsOf l))).
  - rewrite H. clear H. unfold newTimestamps, assignedPairs.
    induction tr as [|[t od] tr IH]; [done|].
    change (omap ?f (?x :: tr))
      with (match f x with Some y => y :: omap f tr | None => omap f tr end).
    destruct od as [d|]; simpl; [|exact IH].
    destruct (String.eqb _ _); simpl; by rewrite IH.
  - unfold pairsOf. clear H. induction l as [|a l IH]; [done|].
    simpl. destruct (String.eqb _ _); simpl; by rewrite IH.
Qed.

(** The load of an input driver is its combined count. *)
Lemma loadOf_combinedCount drivers existingAssignments tr st d :
  StateInv drivers existingAssignments tr st ->
  In d drivers ->
  loadOf (driverLoad st) (Driver.id d) =
    combinedCount existingAssignments (assignments st) (Driver.id d).
Proof.
  intros Hinv Hin.
  rewrite (loadOf_inv st _ (inv_load _ _ _ _ Hinv)).
  unfold timestampsOf.
  rewrite (inv_timestamps _ _ _ _ Hinv), (known_driver _ _ Hin). simpl.
  unfold lengthZ. rewrite length_app, Nat2Z.inj_add.
  fold (lengthZ (existingTimestamps existingAssignments (Driver.id d))).
  fold (lengthZ (newTimestamps tr (Driver.id d))).
  rewrite existingTimestamps_length.
  by rewrite (newTimestamps_length tr (assignments st) _ (inv_pairs _ _ _ _ Hinv)).
Qed.

Lemma filter_map_comm {A B} (f : A -> B) (p : B -> bool) (l : list A) :
  List.filter p (map f l) = map f (List.filter (fun x => p (f x)) l).
Proof.
  induction l as [|x l IH]; [done|]. simpl.
  destruct (p (f x)); simpl; by rewrite IH.
Qed.

Lemma buildDistribution_spec drivers existingAssignments tr st :
  StateInv drivers existingAssignments tr st ->
  Permutation
    (buildDistribution drivers (driverLoad st))
    (map (distributionEntry existingAssignments (assignments st))
         (List.filter
            (fun d => combinedCount existingAssignments (assignments st)
                        (Driver.id d) >=? 1)
            drivers)) /\
  StronglySorted
    (fun a b => DriverDistribution.tripCount a >= DriverDistribution.tripCount b)
    (buildDistribution drivers (driverLoad st)).
Proof.
  intros Hinv. unfold buildDistribution. split.
  - rewrite sort_Permutation, filter_map_comm. simpl.
    assert (forall l, (forall d, In d l -> In d drivers) ->
      map (fun d => {| DriverDistribution.driverId := Driver.id d;
                       DriverDistribution.driverName := Driver.name d;
                       DriverDistribution.tripCount :=
                         loadOf (driverLoad st) (Driver.id d) |})
          (List.filter (fun d => loadOf (driverLoad st) (Driver.id d) >? 0) l) =
      map (distributionEntry existingAssignments (assignments st))
          (List.filter
             (fun d => combinedCount existingAssignments (assignments st)
                         (Driver.id d) >=? 1) l)) as Heq.
    { induction l as [|d l IH]; intros Hl; [done|]. simpl.
      assert (loadOf (driverLoad st) (Driver.id d) =
              combinedCount existingAssignments (assignments st) (Driver.id d))
        as Hd by (apply (loadOf_combinedCount _ _ _ _ d Hinv), Hl; by left).
      rewrite !Hd.
      specialize (IH (fun x Hx => Hl x (or_intror Hx))).
      destruct (Z.gtb_spec (combinedCount existingAssignments (assignments st)
                              (Driver.id d)) 0),
               (Z.geb_spec (combinedCount existingAssignments (assignments st)
                              (Driver.id d)) 1); try lia; simpl; rewrite IH;
        unfold distributionEntry; by rewrite ?Hd. }
    by rewrite Heq.
  - set (l := List.filter _ _).
    assert (StronglySorted (fun a b => byTripCountDesc a b <= 0)
              (Js.sort byTripCountDesc l)) as Hsorted.
    { apply sort_StronglySorted; unfold byTripCountDesc; intros; lia. }
    induction Hsorted as [|a k Hk IH Ha]; constructor; [exact IH|].
    eapply Forall_impl; [exact Ha|]. unfold byTripCountDesc. simpl. intros; lia.
Qed.

(** Claim C8, as amended.  With at least one trip the call returns, the
    distribution has one entry for each input driver whose pre-existing
    and new assignments together are at least one, with that number as
    [tripCount], and it is sorted by decreasing [tripCount]. *)
Theorem distribution_combined_counts trips drivers existingAssignments :
  trips <> [] ->
  exists r,
    assignTripsToDrivers trips drivers existingAssignments = Ok r /\
    Permutation
      (AssignmentResult.distribution r)
      (map (distributionEntry existingAssignments (AssignmentResult.assignments r))
           (List.filter
              (fun d => combinedCount existingAssignments
                          (AssignmentResult.assignments r) (Driver.id d) >=? 1)
              drivers)) /\
    StronglySorted
      (fun a b => DriverDistribution.tripCount a >= DriverDistribution.tripCount b)
      (AssignmentResult.distribution r).
Proof.
  intros Htrips.
  run_cases trips drivers existingAssignments st Hinv Hr; [done| |];
    eexists; (split; [exact Hr|]); simpl.
  - split; constructor.
  - by eapply buildDistribution_spec.
Qed.

(** *** Existing assignments of unknown drivers *)

Lemma addExisting_unknown drivers (ex : list ExistingAssignment.t) st :
  (forall id, known drivers id = false -> driverTimestamps st !! id = None) ->
  foldl addExisting st ex =
  foldl addExisting st
    (List.filter (fun e => known drivers (ExistingAssignment.driverId e)) ex).
Proof.
  revert st. induction ex as [|e ex IH]; intros st Hkeys; [done|]. simpl.
  destruct (known drivers (ExistingAssignment.driverId e)) eqn:Hk; simpl.
  - apply IH. intros id Hid. unfold addExisting. cbv zeta.
    destruct (driverTimestamps st !! ExistingAssignment.driverId e) eqn:Hget;
      simpl; [|by apply Hkeys].
    rewrite lookup_insert_ne; [by apply Hkeys|].
    intros Heq. rewrite Heq in Hk. congruence.
  - unfold addExisting at 2. cbv zeta. rewrite (Hkeys _ Hk). by apply IH.
Qed.

(** Claim C9.  The existing assignments whose driver is not an input
    driver change nothing: the call gives what it gives without them,
    and so do the initial loads and timestamps. *)
Theorem unknown_existing_ignored trips drivers existingAssignments :
  let kept :=
    List.filter
      (fun e => bool_decide (ExistingAssignment.driverId e ∈ map Driver.id drivers))
      existingAssignments in
  initLocals drivers existingAssignments = initLocals drivers kept /\
  assignTripsToDrivers trips drivers existingAssignments =
    assignTripsToDrivers trips drivers kept.
Proof.
  intros kept.
  assert (initLocals drivers existingAssignments = initLocals drivers kept) as Hinit.
  { unfold initLocals. apply (addExisting_unknown drivers).
    intros id Hid.
    destruct (initDriver_fold drivers emptyLocals) as (Hts & _).
    rewrite Hts. unfold known in Hid. rewrite Hid. apply lookup_empty. }
  split; [exact Hinit|].
  unfold assignTripsToDrivers. by rewrite Hinit.
Qed.

(** *** The timestamp of a trip *)



(** *** The selection *)

Section Selection.
(** [localeCompare] is a consistent comparator. *)
Hypothesis localeCompare_antisym :
  forall a b, 0 <= localeCompare a b -> localeCompare b a <= 0.
Hypothesis localeCompare_trans :
  forall a b c, localeCompare a b <= 0 -> localeCompare b c <= 0 ->
                localeCompare a c <= 0.

Lemma localeCompare_refl a : localeCompare a a <= 0.
Proof.
  destruct (Z_le_gt_dec (localeCompare a a) 0) as [H|H]; [exact H|].
  apply localeCompare_antisym. lia.
Qed.

Lemma selectionLe_refl count a : selectionLe count a a.
Proof.
  right. split; [done|]. right. split; [done|]. apply localeCompare_refl.
Qed.

Lemma selectionLe_trans count a b c :
  selectionLe count a b -> selectionLe count b c -> selectionLe count a c.
Proof.
  unfold selectionLe.
  intros [Hab|(Hab & [Hlab|(Hlab & Hnab)])] [Hbc|(Hbc & [Hlbc|(Hlbc & Hnbc)])];
    try (left; lia); right; (split; [lia|]); try (left; lia).
  right. split; [lia|]. by eapply localeCompare_trans.
Qed.

Lemma selectionLe_ext count count' a b :
  count (Driver.id a) = count' (Driver.id a) ->
  count (Driver.id b) = count' (Driver.id b) ->
  selectionLe count a b -> selectionLe count' a b.
Proof. unfold selectionLe. by intros <- <-. Qed.

Lemma pickDriver_le load bestDriver driver :
  selectionLe (loadOf load) (pickDriver load bestDriver driver) bestDriver /\
  selectionLe (loadOf load) (pickDriver load bestDriver driver) driver.
Proof.
  unfold pickDriver, priorityOf.
  destruct (Z.ltb_spec (default 2 (Driver.priority driver))
              (default 2 (Driver.priority bestDriver))) as [H1|H1].
  { split; [by left|apply selectionLe_refl]. }
  destruct (Z.gtb_spec (default 2 (Driver.priority driver))
              (default 2 (Driver.priority bestDriver))) as [H2|H2].
  { split; [apply selectionLe_refl|left; lia]. }
  destruct (Z.ltb_spec (loadOf load (Driver.id driver))
              (loadOf load (Driver.id bestDriver))) as [H3|H3].
  { split; [|apply selectionLe_refl]. right. split; [lia|]. by left. }
  destruct (Z.gtb_spec (loadOf load (Driver.id driver))
              (loadOf load (Driver.id bestDriver))) as [H4|H4].
  { split; [apply selectionLe_refl|]. right. split; [lia|]. left. lia. }
  destruct (Z.ltb_spec (localeCompare (Driver.name driver)
                          (Driver.name bestDriver)) 0) as [H5|H5].
  - split; [|apply selectionLe_refl].
    right. split; [lia|]. right. split; [lia|]. lia.
  - split; [apply selectionLe_refl|].
    right. split; [lia|]. right. split; [lia|].
    by apply localeCompare_antisym.
Qed.

Lemma reduce_pickDriver_min load rest bestDriver seen :
  (forall c, In c seen -> selectionLe (loadOf load) bestDriver c) ->
  forall c, In c (seen ++ rest) ->
            selectionLe (loadOf load)
              (fold_left (pickDriver load) rest bestDriver) c.
Proof.
  revert bestDriver seen.
  induction rest as [|d rest IH]; intros bestDriver seen Hseen c Hc.
  - rewrite app_nil_r in Hc. by apply Hseen.
  - simpl. apply (IH _ (seen ++ [d])).
    + intros x [Hx|[<-|[]]]%in_app_or.
      * apply (selectionLe_trans _ _ bestDriver);
          [apply (pickDriver_le load bestDriver d)|by apply Hseen].
      * apply (pickDriver_le load bestDriver d).
    + by rewrite <- app_assoc.
Qed.

(** Claim C3.  When the trip at position [j] is reached the call has
    not raised; the load of a driver is the number of its pre-existing
    assignments plus the number of its assignments made so far; a
    candidate is an input driver available on the effective day whose
    timestamps are all far enough from the trip; and when there is a
    candidate, the selected driver is a candidate that is least in the
    order: value of the [priority] field (2 when it is absent), then
    number of pre-existing assignments plus assignments made so far,
    then name as [localeCompare] orders the [name] fields.  So no
    candidate has a smaller priority value than the selected one,
    whatever the loads are; among the candidates of that priority value
    none has fewer trips; and the name of the selected one compares at
    or before the name of each of those with as many trips. *)
Theorem selection_minimal trips drivers existingAssignments j t :
  trips !! j = Some t ->
  exists st,
    processTrips (buildDriversByDay drivers)
      (initLocals drivers existingAssignments) (take j trips) = Ok st /\
    let candidates :=
      availableDriversOf (buildDriversByDay drivers) (driverTimestamps st) t in
    let count := combinedCount existingAssignments (assignments st) in
    (forall c, In c drivers ->
               loadOf (driverLoad st) (Driver.id c) =
               existingCount existingAssignments (Driver.id c)
               + newCount (assignments st) (Driver.id c)) /\
    (forall c,
        In c candidates <->
        0 <= effectiveDayOf t <= 6 /\ In c drivers /\
        In (effectiveDayOf t) (Driver.availability c) /\
        forall ts,
          In ts (existingTimestamps existingAssignments (Driver.id c)
                 ++ newTimestamps
                      (take j (runTrace trips drivers existingAssignments))
                      (Driver.id c)) ->
          separated ts (tripTimestampOf t)) /\
    (candidates <> [] ->
     exists d,
       runTrace trips drivers existingAssignments !! j = Some (t, Some d) /\
       In d candidates /\
       (forall c, In c candidates -> selectionLe count d c) /\
       (forall c, In c candidates ->
                  default 2 (Driver.priority d) <= default 2 (Driver.priority c)) /\
       (forall c, In c candidates ->
                  default 2 (Driver.priority c) = default 2 (Driver.priority d) ->
                  count (Driver.id d) <= count (Driver.id c)) /\
       (forall c, In c candidates ->
                  default 2 (Driver.priority c) = default 2 (Driver.priority d) ->
                  count (Driver.id c) = count (Driver.id d) ->
                  localeCompare (Driver.name d) (Driver.name c) <= 0)).
Proof.
  intros Hj.
  destruct (decisions_trips drivers existingAssignments trips [] _ j t
              (initLocals_inv drivers existingAssignments) Hj) as (od & Hod).
  fold (runTrace trips drivers existingAssignments) in Hod.
  destruct (runTrace_lookup _ _ _ _ _ _ Hod) as (st & Hrun & Hinv & _ & Hsel).
  exists st. split; [exact Hrun|]. cbv zeta. split; [|split].
  - intros c Hc. by apply (loadOf_combinedCount _ _ _ _ c Hinv).
  - intros c. rewrite availableDriversOf_In, dayDriversOf_In.
    split.
    + intros ((Hr & Hin & Hav) & Hsep). repeat split; try done; try lia.
      intros ts Hts. apply Hsep. unfold timestampsOf.
      by rewrite (inv_timestamps _ _ _ _ Hinv), (known_driver _ _ Hin).
    + intros (Hr & Hin & Hav & Hsep). repeat split; try done; try lia.
      intros ts Hts. apply Hsep. unfold timestampsOf in Hts.
      by rewrite (inv_timestamps _ _ _ _ Hinv), (known_driver _ _ Hin) in Hts.
  - intros Hne. subst od. unfold selectedDriverOf in Hod.
    assert (forall c,
               In c (availableDriversOf (buildDriversByDay drivers)
                       (driverTimestamps st) t) ->
               loadOf (driverLoad st) (Driver.id c) =
               combinedCount existingAssignments (assignments st) (Driver.id c))
      as Hload.
    { intros c Hc. apply (loadOf_combinedCount _ _ _ _ c Hinv).
      apply availableDriversOf_In in Hc as [Hc _].
      by apply dayDriversOf_In in Hc as (_ & Hc & _). }
    destruct (availableDriversOf (buildDriversByDay drivers)
                (driverTimestamps st) t) as [|first rest] eqn:Hcand; [done|].
    set (d := fold_left (pickDriver (driverLoad st)) rest first) in *.
    assert (In d (first :: rest)) as Hd by apply reduce_pickDriver_In.
    assert (forall c, In c (first :: rest) ->
                      selectionLe
                        (combinedCount existingAssignments (assignments st)) d c)
      as Hmin.
    { intros c Hc.
      apply (selectionLe_ext (loadOf (driverLoad st))); [by apply Hload..|].
      apply (reduce_pickDriver_min _ rest first [first]); [|exact Hc].
      intros x [<-|[]]. apply selectionLe_refl. }
    exists d. split; [exact Hod|]. split; [exact Hd|].
    split; [exact Hmin|].
    split; [|split]; intros c Hc; specialize (Hmin c Hc);
      unfold selectionLe in Hmin; lia.
Qed.

End Selection.

(** *** Malformed times *)

Lemma sameParse_timestamp t1 t2 :
  sameParse t1 t2 -> tripTimestampOf t1 = tripTimestampOf t2.
Proof.
  intros (_ & _ & Hdate & _ & Hparse).
  unfold tripTimestampOf, getTimestamp. by rewrite Hdate, Hparse.
Qed.

Lemma sameParse_effectiveDay t1 t2 :
  sameParse t1 t2 -> effectiveDayOf t1 = effectiveDayOf t2.
Proof.
  intros (_ & _ & _ & Hdow & Hparse).
  unfold effectiveDayOf, getEffectiveDayOfWeek. by rewrite Hdow, Hparse.
Qed.

Lemma processTrip_sameParse dbd st1 st2 t1 t2 a b :
  sameButWarnings st1 st2 -> sameParse t1 t2 ->
  processTrip dbd st1 t1 = Ok a ->
  processTrip dbd st2 t2 = Ok b ->
  sameButWarnings a b /\
  exists w w',
    warnings a = warnings st1 ++ w /\ warnings b = warnings st2 ++ w' /\
    (Trip.plannedArrivalTime t1 = Trip.plannedArrivalTime t2 -> w = w') /\
    (w = w' \/
     exists date,
       w = [conflictWarning t1 date] /\ w' = [conflictWarning t2 date]).
Proof.
  intros (Hload & Hts & Hassign) Hsame.
  pose proof (sameParse_timestamp _ _ Hsame) as Etime.
  pose proof (sameParse_effectiveDay _ _ Hsame) as Eday.
  destruct Hsame as (Hid & Htid & Hdate & Hdow & _).
  assert (dayDriversOf dbd t1 = dayDriversOf dbd t2) as Edrivers
    by (unfold dayDriversOf; by rewrite Eday).
  assert (availableDriversOf dbd (driverTimestamps st1) t1 =
          availableDriversOf dbd (driverTimestamps st2) t2) as Eavail
    by (unfold availableDriversOf; by rewrite Etime, Edrivers, Hts).
  unfold processTrip.
  rewrite <- Eavail, <- Edrivers, <- Eday, <- Etime, <- Hid, <- Htid, <- Hdate,
    <- Hdow, <- Hload, <- Hts, <- Hassign.
  destruct (availableDriversOf dbd (driverTimestamps st1) t1) as [|first rest].
  - destruct (dayDriversOf dbd t1) as [|d0 ds].
    + intros [= <-] [= <-]. simpl. split; [done|].
      do 2 eexists. split; [reflexivity|]. split; [reflexivity|].
      split; [done|]. by left.
    + destruct (Js.toISOString (Trip.tripDate t1)) as [iso|]; [|discriminate].
      simpl. intros [= <-] [= <-]. simpl. split; [done|].
      do 2 eexists. split; [reflexivity|]. split; [reflexivity|].
      split; [by intros ->|].
      right. exists (hd "" (Js.split "T" iso)).
      unfold conflictWarning. by rewrite Htid.
  - destruct (driverTimestamps st1 !! _) as [timestamps|]; [|discriminate].
    intros [= <-] [= <-]. simpl. split; [done|].
    exists [], []. rewrite !app_nil_r. repeat split. by left.
Qed.

Lemma sameParse_refl t : sameParse t t.
Proof. by repeat split. Qed.

Lemma processTrips_frame dbd trips st1 st2 a b :
  sameButWarnings st1 st2 ->
  processTrips dbd st1 trips = Ok a ->
  processTrips dbd st2 trips = Ok b ->
  sameButWarnings a b /\
  exists w, warnings a = warnings st1 ++ w /\ warnings b = warnings st2 ++ w.
Proof.
  revert st1 st2. induction trips as [|t trips IH]; intros st1 st2 Hsame; simpl.
  - intros [= <-] [= <-]. split; [done|]. exists []. by rewrite !app_nil_r.
  - destruct (processTrip dbd st1 t) as [a1|] eqn:H1; [|discriminate].
    destruct (processTrip dbd st2 t) as [b1|] eqn:H2; [|discriminate].
    simpl. intros Ha Hb.
    destruct (processTrip_sameParse dbd st1 st2 t t a1 b1 Hsame
                (sameParse_refl t) H1 H2)
      as (Hsame1 & w & w' & Hw & Hw' & Heq & _).
    rewrite <- (Heq eq_refl) in Hw'.
    destruct (IH a1 b1 Hsame1 Ha Hb) as (Hsame' & w2 & Hwa & Hwb).
    split; [exact Hsame'|]. exists (w ++ w2).
    rewrite Hwa, Hwb, Hw, Hw'. by rewrite !app_assoc.
Qed.

Lemma processTrips_app dbd l1 l2 st st' :
  processTrips dbd st (l1 ++ l2) = Ok st' ->
  exists st1, processTrips dbd st l1 = Ok st1 /\
              processTrips dbd st1 l2 = Ok st'.
Proof.
  revert st. induction l1 as [|t l1 IH]; intros st; simpl.
  - intros H. by exists st.
  - destruct (processTrip dbd st t) as [st1|]; [|discriminate]. simpl. apply IH.
Qed.

Lemma assignTripsToDrivers_main trips drivers existingAssignments st :
  trips <> [] -> drivers <> [] ->
  processTrips (buildDriversByDay drivers)
    (initLocals drivers existingAssignments) trips = Ok st ->
  assignTripsToDrivers trips drivers existingAssignments =
    Ok {| AssignmentResult.assignments := assignments st;
          AssignmentResult.warnings := warnings st;
          AssignmentResult.summary :=
            "Assigned " +:+ pretty (lengthZ (assignments st)) +:+ " of "
            +:+ pretty (lengthZ trips) +:+ " trips";
          AssignmentResult.distribution :=
            buildDistribution drivers (driverLoad st);
          AssignmentResult.stats :=
            {| Stats.totalTrips := lengthZ trips;
               Stats.assignedCount := lengthZ (assignments st);
               Stats.unassignedCount :=
                 lengthZ trips - lengthZ (assignments st) |} |}.
Proof.
  intros Htrips Hdrivers Hrun.
  destruct trips as [|trip trips]; [done|].
  destruct drivers as [|driver drivers]; [done|].
  unfold assignTripsToDrivers. by rewrite Hrun.
Qed.

(** Claim C6, as amended.  Let the planned time of a trip be a string that
    [parseTime] rejects.  Its timestamp is midnight of its date, its
    effective day is its day of the week, and the call raises neither
    with it nor with the time removed.  The two results have the same
    assignments, summary, distribution and counts; their warnings differ
    at most in the one warning of this trip, which quotes the string
    where the other says that the time is unknown. *)
Theorem rejected_time_as_absent pre t post drivers existingAssignments s :
  Trip.plannedArrivalTime t = Some s ->
  parseTime (Some s) = None ->
  tripTimestampOf t = Js.setUTCHours (Trip.tripDate t) 0 0 0 0 /\
  tripTimestampOf t = tripTimestampOf (withoutTime t) /\
  effectiveDayOf t = Trip.dayOfWeek t /\
  exists r r',
    assignTripsToDrivers (pre ++ t :: post) drivers existingAssignments = Ok r /\
    assignTripsToDrivers (pre ++ withoutTime t :: post) drivers
      existingAssignments = Ok r' /\
    AssignmentResult.assignments r = AssignmentResult.assignments r' /\
    AssignmentResult.summary r = AssignmentResult.summary r' /\
    AssignmentResult.distribution r = AssignmentResult.distribution r' /\
    AssignmentResult.stats r = AssignmentResult.stats r' /\
    exists ws1 w w' ws2,
      AssignmentResult.warnings r = ws1 ++ w ++ ws2 /\
      AssignmentResult.warnings r' = ws1 ++ w' ++ ws2 /\
      (w = w' \/
       exists date,
         w = ["Trip " +:+ Trip.tripId t
              +:+ ": All drivers have conflicting trips near " +:+ s
              +:+ " on " +:+ date] /\
         w' = ["Trip " +:+ Trip.tripId t
               +:+ ": All drivers have conflicting trips near unknown time on "
               +:+ date]).
Proof.
  intros Htime Hparse.
  assert (sameParse t (withoutTime t)) as Hsame.
  { repeat split. simpl. by rewrite Htime, Hparse. }
  split; [unfold tripTimestampOf, getTimestamp; by rewrite Htime, Hparse|].
  split; [by apply sameParse_timestamp|].
  split; [unfold effectiveDayOf, getEffectiveDayOfWeek; by rewrite Htime, Hparse|].
  assert (lengthZ (pre ++ t :: post) = lengthZ (pre ++ withoutTime t :: post))
    as Hlen by (unfold lengthZ; by rewrite !length_app).
  assert (forall x, pre ++ x :: post <> []) as Hne by (intros x; by destruct pre).
  destruct drivers as [|driver drivers].
  - destruct (assignTripsToDrivers_cases (pre ++ t :: post) [] existingAssignments)
      as [(H & _)|[(_ & _ & Hr)|(_ & H & _)]]; [by apply Hne in H| |done].
    destruct (assignTripsToDrivers_cases (pre ++ withoutTime t :: post) []
                existingAssignments)
      as [(H & _)|[(_ & _ & Hr')|(_ & H & _)]]; [by apply Hne in H| |done].
    do 2 eexists. split; [exact Hr|]. split; [exact Hr'|]. simpl.
    rewrite Hlen. repeat split.
    exists ["No active drivers available"], [], [], []. repeat split. by left.
  - set (ds := driver :: drivers).
    destruct (run_main (pre ++ t :: post) ds existingAssignments)
      as (st & Hrun & _).
    destruct (run_main (pre ++ withoutTime t :: post) ds existingAssignments)
      as (st' & Hrun' & _).
    rewrite (assignTripsToDrivers_main _ ds _ st (Hne t) ltac:(done) Hrun).
    rewrite (assignTripsToDrivers_main _ ds _ st' (Hne _) ltac:(done) Hrun').
    apply processTrips_app in Hrun as (st0 & Hpre & Hrest).
    apply processTrips_app in Hrun' as (st0' & Hpre' & Hrest').
    rewrite Hpre in Hpre'. injection Hpre' as <-.
    simpl in Hrest, Hrest'.
    destruct (processTrip (buildDriversByDay ds) st0 t) as [a|] eqn:Ha;
      [|discriminate].
    destruct (processTrip (buildDriversByDay ds) st0 (withoutTime t)) as [b|] eqn:Hb;
      [|discriminate].
    simpl in Hrest, Hrest'.
    destruct (processTrip_sameParse _ st0 st0 t (withoutTime t) a b
                ltac:(by repeat split) Hsame Ha Hb)
      as (Hab & w & w' & Hw & Hw' & _ & Hww).
    destruct (processTrips_frame _ post a b st st' Hab Hrest Hrest')
      as ((Hload & _ & Hassign) & w2 & Hwa & Hwb).
    do 2 eexists. split; [reflexivity|]. split; [reflexivity|]. simpl.
    rewrite Hload, Hassign, Hlen. repeat split.
    exists (warnings st0), w, w', w2.
    rewrite Hwa, Hwb, Hw, Hw'. split; [by rewrite <- !app_assoc|].
    split; [by rewrite <- !app_assoc|].
    destruct Hww as [->|(date & -> & ->)]; [by left|].
    unfold conflictWarning. simpl. rewrite Htime.
    destruct s as [|c s]; [by left|]. right. by exists date.
Qed.

(** ** Further properties of the assignment function *)

(** X1.  The call never raises, whatever the input is: an Invalid Date
    never reaches [toISOString], and the timestamp list of a selected
    driver is always there. *)
Theorem assignTripsToDrivers_returns trips drivers existingAssignments :
  exists r, assignTripsToDrivers trips drivers existingAssignments = Ok r.
Proof.
  destruct (assignTripsToDrivers_pairs trips drivers existingAssignments)
    as (r & Hr & _).
  by exists r.
Qed.

Lemma decisions_fst drivers existingAssignments trips tr st :
  StateInv drivers existingAssignments tr st ->
  map fst (decisions (buildDriversByDay drivers) st trips) = trips.
Proof.
  revert tr st. induction trips as [|trip trips IH]; intros tr st Hinv; [done|].
  destruct (processTrip_inv drivers existingAssignments tr st trip Hinv)
    as (st1 & Hstep & Hinv1).
  simpl. rewrite Hstep. f_equal. by eapply IH.
Qed.

Lemma assignedPairs_sublist tr :
  map fst (assignedPairs tr) `sublist_of` map (fun p => Trip.id (fst p)) tr.
Proof.
  induction tr as [|[t od] tr IH]; [constructor|].
  unfold assignedPairs in *.
  change (omap ?f (?x :: tr))
    with (match f x with Some y => y :: omap f tr | None => omap f tr end).
  destruct od as [d|]; simpl; by constructor.
Qed.

(** X2.  The assignments follow the order of the input trips: their trip
    ids are the ids of some of the input trips, in input order, at most
    one assignment for each position; and every driver id is the id of an
    input driver. *)
Theorem assignments_follow_input trips drivers existingAssignments :
  exists r,
    assignTripsToDrivers trips drivers existingAssignments = Ok r /\
    map Assignment.tripId (AssignmentResult.assignments r)
      `sublist_of` map Trip.id trips /\
    forall a, In a (AssignmentResult.assignments r) ->
              exists d, In d drivers /\ Assignment.driverId a = Driver.id d.
Proof.
  destruct (assignTripsToDrivers_pairs trips drivers existingAssignments)
    as (r & Hr & Hpairs).
  exists r. split; [exact Hr|]. split.
  - replace (map Assignment.tripId (AssignmentResult.assignments r))
      with (map fst (pairsOf (AssignmentResult.assignments r)))
      by (unfold pairsOf; by rewrite map_map).
    rewrite Hpairs.
    replace (map Trip.id trips)
      with (map (fun p => Trip.id (fst p))
              (runTrace trips drivers existingAssignments)).
    + apply assignedPairs_sublist.
    + rewrite <- (map_map fst Trip.id). unfold runTrace.
      by rewrite (decisions_fst drivers existingAssignments trips [] _
                    (initLocals_inv drivers existingAssignments)).
  - intros a Ha.
    assert (In (Assignment.tripId a, Assignment.driverId a)
              (assignedPairs (runTrace trips drivers existingAssignments))) as Hin.
    { rewrite <- Hpairs. unfold pairsOf.
      apply (in_map (fun a => (Assignment.tripId a, Assignment.driverId a))), Ha. }
    apply list_elem_of_In, list_elem_of_omap in Hin as ([t od] & Hin & Hf).
    destruct od as [d|]; [|discriminate]. simpl in Hf. injection Hf as _ Hd.
    apply list_elem_of_lookup in Hin as (j & Hj).
    apply runTrace_selected in Hj as (_ & Hd' & _).
    exists d. by split.
Qed.

(** *** Conflicts in minutes *)

Lemma getTimestamp_minutes t time :
  -8640000000000000 <= t < 8640000000000000 ->
  getTimestamp (Some t) time = Some (60000 * minuteOfEpoch t time).
Proof.
  intros Hrange. unfold getTimestamp, minuteOfEpoch.
  pose proof (Z.div_mod t Js.msPerDay) as Hdiv.
  pose proof (Z.mod_pos_bound t Js.msPerDay) as Hmod.
  unfold Js.msPerDay in Hdiv, Hmod.
  assert (forall h m, 0 <= h <= 23 -> 0 <= m <= 59 ->
            Js.setUTCHours (Some t) h m 0 0 =
            Some (60000 * (Js.Day t * 1440 + (h * 60 + m)))) as Hset.
  { intros h m Hh Hm.
    unfold Js.setUTCHours, Js.TimeClip, Js.MakeDate, Js.MakeTime, Js.Day,
      Js.msPerDay, Js.msPerHour, Js.msPerMinute, Js.msPerSecond.
    destruct (Z.gtb_spec
                (Z.abs (t / 86400000 * 86400000 + (h * 3600000 + m * 60000 + 0 * 1000 + 0)))
                8640000000000000); [lia|]. f_equal. lia. }
  destruct (parseTime time) as [parsed|] eqn:Hp.
  - apply parseTime_range in Hp as [Hh Hm]. by apply Hset.
  - rewrite (Hset 0 0) by lia. f_equal.
Qed.

(** X3.  Two trips on valid dates conflict exactly when their planned
    instants, counted in minutes from the epoch with an absent or rejected
    time counting as 00:00, are less than 180 minutes apart; the calendar
    days play no other part, so a conflict can straddle midnight. *)
Theorem conflict_iff_minutes t1 time1 t2 time2 :
  -8640000000000000 <= t1 < 8640000000000000 ->
  -8640000000000000 <= t2 < 8640000000000000 ->
  timestampsTooClose (getTimestamp (Some t1) time1) (getTimestamp (Some t2) time2)
    = true <->
  Z.abs (minuteOfEpoch t1 time1 - minuteOfEpoch t2 time2)
    < 60 * MIN_HOURS_BETWEEN_TRIPS.
Proof.
  intros H1 H2.
  rewrite (getTimestamp_minutes t1 time1 H1), (getTimestamp_minutes t2 time2 H2).
  rewrite timestampsTooClose_true.
  unfold MIN_HOURS_BETWEEN_TRIPS, Js.msPerHour. lia.
Qed.

(** *** The warning of a trip without a driver *)

(** X4.  When no driver is selected for a trip, the body of the loop does
    not raise, and changes nothing but the warnings, to which it adds one.
    The warning says that no driver is available on the effective day
    exactly when no input driver works that day; otherwise some driver
    works that day, all of them have a conflict, and the warning is the
    one about conflicts, with the date of the trip. *)
Theorem unassigned_warning drivers st t :
  selectedDriverOf (buildDriversByDay drivers) st t = None ->
  exists st' w,
    processTrip (buildDriversByDay drivers) st t = Ok st' /\
    driverLoad st' = driverLoad st /\
    driverTimestamps st' = driverTimestamps st /\
    assignments st' = assignments st /\
    warnings st' = warnings st ++ [w] /\
    (((forall d, In d drivers ->
                 ~ (0 <= effectiveDayOf t <= 6 /\
                    In (effectiveDayOf t) (Driver.availability d))) /\
      w = noDriverWarning t) \/
     ((exists d, In d drivers /\ 0 <= effectiveDayOf t <= 6 /\
                 In (effectiveDayOf t) (Driver.availability d)) /\
      exists iso, Js.toISOString (Trip.tripDate t) = Ok iso /\
                  w = conflictWarning t (hd "" (Js.split "T" iso)))).
Proof.
  unfold selectedDriverOf, processTrip.
  destruct (availableDriversOf (buildDriversByDay drivers) (driverTimestamps st) t)
    as [|first rest] eqn:Havail; [intros _|discriminate].
  destruct (dayDriversOf (buildDriversByDay drivers) t) as [|d0 ds] eqn:Hday.
  - do 2 eexists. split; [reflexivity|]. simpl. repeat (split; [reflexivity|]).
    left. split.
    + intros d Hd (Hr & Hav).
      assert (In d (dayDriversOf (buildDriversByDay drivers) t)) as Hin
        by (apply dayDriversOf_In; tauto).
      by rewrite Hday in Hin.
    + unfold noDriverWarning.
      by destruct (effectiveDayOf t =? Trip.dayOfWeek t).
  - assert (hasConflict (driverTimestamps st) (tripTimestampOf t) d0 = true)
      as Hconf.
    { destruct (hasConflict (driverTimestamps st) (tripTimestampOf t) d0)
        eqn:E; [done|].
      unfold availableDriversOf in Havail. rewrite Hday in Havail.
      simpl in Havail. rewrite E in Havail. discriminate. }
    apply conflict_valid_date in Hconf as [v Hdate].
    destruct (Js.toISOString (Trip.tripDate t)) as [iso|e] eqn:Hiso;
      [|by rewrite Hdate in Hiso].
    do 2 eexists. split; [reflexivity|]. simpl. repeat (split; [reflexivity|]).
    right. split.
    + exists d0.
      assert (In d0 (dayDriversOf (buildDriversByDay drivers) t)) as Hin
        by (rewrite Hday; by left).
      apply dayDriversOf_In in Hin. tauto.
    + exists iso. split; [reflexivity|]. reflexivity.
Qed.

(** *** The order of the existing assignments *)

Lemma existsb_Permutation {A} (f : A -> bool) (l l' : list A) :
  Permutation l l' -> existsb f l = existsb f l'.
Proof.
  induction 1 as [|x l l' _ IH|x y l|l l' l'' _ IH1 _ IH2]; simpl.
  - done.
  - by rewrite IH.
  - by destruct (f x), (f y).
  - by rewrite IH1.
Qed.

Lemma availableDriversOf_permuted dbd ts1 ts2 t :
  (forall id, option_Forall2 Permutation (ts1 !! id) (ts2 !! id)) ->
  availableDriversOf dbd ts1 t = availableDriversOf dbd ts2 t.
Proof.
  intros Hts. unfold availableDriversOf. apply filter_ext. intros d.
  f_equal. unfold hasConflict, timestampsOf. apply existsb_Permutation.
  destruct (Hts (Driver.id d)); simpl; done.
Qed.

Lemma processTrip_permuted dbd st1 st2 t :
  permuted st1 st2 ->
  match processTrip dbd st1 t, processTrip dbd st2 t with
  | Ok a, Ok b => permuted a b
  | Throw e1, Throw e2 => e1 = e2
  | _, _ => False
  end.
Proof.
  intros (Hload & Hts & Hassign & Hwarn). unfold processTrip.
  rewrite <- (availableDriversOf_permuted dbd _ _ t Hts), <- Hload, <- Hassign,
    <- Hwarn.
  destruct (availableDriversOf dbd (driverTimestamps st1) t) as [|first rest].
  - destruct (dayDriversOf dbd t) as [|d0 ds]; [by repeat split|].
    destruct (Js.toISOString (Trip.tripDate t)); simpl; [by repeat split|done].
  - set (d := fold_left (pickDriver (driverLoad st1)) rest first).
    pose proof (Hts (Driver.id d)) as Hd.
    destruct Hd as [l1 l2 Hperm|]; [|done].
    split; [done|]. split; [|done]. simpl. intros id.
    destruct (decide (Driver.id d = id)) as [<-|Hne].
    + rewrite !lookup_insert_eq. constructor. by rewrite Hperm.
    + rewrite !lookup_insert_ne by done. apply Hts.
Qed.

Lemma processTrips_permuted dbd trips st1 st2 :
  permuted st1 st2 ->
  match processTrips dbd st1 trips, processTrips dbd st2 trips with
  | Ok a, Ok b => permuted a b
  | Throw e1, Throw e2 => e1 = e2
  | _, _ => False
  end.
Proof.
  revert st1 st2. induction trips as [|t trips IH]; intros st1 st2 Hperm; simpl;
    [done|].
  pose proof (processTrip_permuted dbd st1 st2 t Hperm) as Hstep.
  destruct (processTrip dbd st1 t) as [a|e1], (processTrip dbd st2 t) as [b|e2];
    simpl; try done.
  by apply IH.
Qed.

Lemma initLocals_permuted drivers ex ex' :
  Permutation ex ex' ->
  permuted (initLocals drivers ex) (initLocals drivers ex').
Proof.
  intros Hperm. unfold initLocals.
  destruct (addExisting_fold drivers ex) as (Hts & Hload & Ha & Hw).
  destruct (addExisting_fold drivers ex') as (Hts' & Hload' & Ha' & Hw').
  assert (forall id, Permutation (existingTimestamps ex id) (existingTimestamps ex' id))
    as Hex by (intros id; unfold existingTimestamps; by rewrite Hperm).
  split; [|split; [|split]].
  - apply map_eq. intros id. rewrite Hload, Hload', Hts, Hts'.
    destruct (known drivers id); [|done]. simpl. do 2 f_equal.
    unfold lengthZ. f_equal. apply Permutation_length, Hex.
  - intros id. rewrite Hts, Hts'.
    destruct (known drivers id); constructor. apply Hex.
  - by rewrite Ha, Ha'.
  - by rewrite Hw, Hw'.
Qed.

(** X5.  The order in which the existing assignments are given does not
    matter: the call gives the same result on any rearrangement of them. *)
Theorem existing_order_irrelevant trips drivers existingAssignments existing' :
  Permutation existingAssignments existing' ->
  assignTripsToDrivers trips drivers existingAssignments =
    assignTripsToDrivers trips drivers existing'.
Proof.
  intros Hperm. unfold assignTripsToDrivers.
  destruct trips as [|trip trips]; [done|].
  destruct drivers as [|driver drivers]; [done|].
  pose proof (processTrips_permuted (buildDriversByDay (driver :: drivers))
                (trip :: trips) _ _
                (initLocals_permuted (driver :: drivers) _ _ Hperm)) as Hrun.
  destruct (processTrips _ (initLocals _ existingAssignments) _) as [a|e1],
           (processTrips _ (initLocals _ existing') _) as [b|e2];
    simpl; try done; [|by rewrite Hrun].
  destruct Hrun as (Hload & _ & Hassign & Hwarn).
  by rewrite Hload, Hassign, Hwarn.
Qed.

(** *** The total of the distribution *)

Lemma assignments_known trips drivers existingAssignments st a :
  StateInv drivers existingAssignments
    (runTrace trips drivers existingAssignments) st ->
  In a (assignments st) ->
  exists d, In d drivers /\ Assignment.driverId a = Driver.id d.
Proof.
  intros Hinv Ha.
  assert (In (Assignment.tripId a, Assignment.driverId a)
            (assignedPairs (runTrace trips drivers existingAssignments))) as Hin.
  { rewrite <- (inv_pairs _ _ _ _ Hinv). unfold pairsOf.
    apply (in_map (fun a => (Assignment.tripId a, Assignment.driverId a))), Ha. }
  apply list_elem_of_In, list_elem_of_omap in Hin as ([t od] & Hin & Hf).
  destruct od as [d|]; [|discriminate]. simpl in Hf. injection Hf as _ Hd.
  apply list_elem_of_lookup in Hin as (j & Hj).
  apply runTrace_selected in Hj as (_ & Hd' & _).
  exists d. by split.
Qed.

Lemma totalTripCount_Permutation l l' :
  Permutation l l' -> totalTripCount l = totalTripCount l'.
Proof.
  induction 1 as [|x l l' _ IH|x y l|l l' l'' _ IH1 _ IH2]; simpl; lia.
Qed.

Lemma lengthZ_nonneg {A} (l : list A) : 0 <= lengthZ l.
Proof. unfold lengthZ. lia. Qed.

Lemma totalTripCount_entries existingAssignments l ds :
  totalTripCount
    (map (distributionEntry existingAssignments l)
       (List.filter
          (fun d => combinedCount existingAssignments l (Driver.id d) >=? 1) ds)) =
  foldr (fun d acc => combinedCount existingAssignments l (Driver.id d) + acc) 0 ds.
Proof.
  induction ds as [|d ds IH]; [done|]. simpl.
  assert (0 <= combinedCount existingAssignments l (Driver.id d)) as Hnn.
  { unfold combinedCount, existingCount, newCount.
    pose proof (lengthZ_nonneg
                  (List.filter
                     (fun e => String.eqb (ExistingAssignment.driverId e) (Driver.id d))
                     existingAssignments)).
    pose proof (lengthZ_nonneg
                  (List.filter
                     (fun a => String.eqb (Assignment.driverId a) (Driver.id d)) l)).
    lia. }
  destruct (Z.geb_spec (combinedCount existingAssignments l (Driver.id d)) 1);
    simpl; rewrite IH; lia.
Qed.

Lemma lengthZ_cons {A} (x : A) (l : list A) : lengthZ (x :: l) = lengthZ l + 1.
Proof. unfold lengthZ. simpl. lia. Qed.

(** With distinct driver ids, the counts by driver of the entries of a
    list add up to the number of entries whose key is a driver id. *)
Lemma sum_counts {X} (key : X -> string) (xs : list X) ds :
  NoDup (map Driver.id ds) ->
  foldr (fun d acc =>
           lengthZ (List.filter (fun x => String.eqb (key x) (Driver.id d)) xs) + acc)
        0 ds =
  lengthZ (List.filter (fun x => known ds (key x)) xs).
Proof.
  induction ds as [|d ds IH]; intros Hnodup.
  - simpl. induction xs as [|x xs IHxs]; [done|]. simpl. exact IHxs.
  - simpl in Hnodup. apply NoDup_cons in Hnodup as [Hd Hnodup].
    simpl. rewrite (IH Hnodup). clear IH.
    induction xs as [|x xs IHxs]; [done|]. simpl.
    assert (known (d :: ds) (key x) =
            String.eqb (key x) (Driver.id d) || known ds (key x)) as Hk.
    { unfold known. simpl.
      destruct (String.eqb_spec (key x) (Driver.id d)) as [->|Hne]; simpl.
      - apply bool_decide_eq_true_2. by left.
      - apply bool_decide_ext. rewrite elem_of_cons.
        split; [intros [?|?]; [congruence|done]|by right]. }
    rewrite Hk.
    destruct (String.eqb_spec (key x) (Driver.id d)) as [Heq|Hne]; simpl.
    + assert (known ds (key x) = false) as ->.
      { apply bool_decide_eq_false_2. by rewrite Heq. }
      rewrite !lengthZ_cons. lia.
    + destruct (known ds (key x)); rewrite ?lengthZ_cons; lia.
Qed.

Lemma sum_combinedCount existingAssignments l ds :
  foldr (fun d acc => combinedCount existingAssignments l (Driver.id d) + acc) 0 ds =
  foldr (fun d acc => existingCount existingAssignments (Driver.id d) + acc) 0 ds
  + foldr (fun d acc => newCount l (Driver.id d) + acc) 0 ds.
Proof.
  induction ds as [|d ds IH]; [done|]. simpl. rewrite IH.
  unfold combinedCount. lia.
Qed.

(** X6.  With pairwise distinct driver ids and at least one trip, the trip
    counts of the distribution add up to the number of existing
    assignments of input drivers plus the number of new assignments. *)
Theorem distribution_total trips drivers existingAssignments :
  NoDup (map Driver.id drivers) ->
  trips <> [] ->
  exists r,
    assignTripsToDrivers trips drivers existingAssignments = Ok r /\
    totalTripCount (AssignmentResult.distribution r) =
      lengthZ (List.filter
                 (fun e => known drivers (ExistingAssignment.driverId e))
                 existingAssignments)
      + Stats.assignedCount (AssignmentResult.stats r).
Proof.
  intros Hnodup Htrips.
  run_cases trips drivers existingAssignments st Hinv Hr; [done| |];
    eexists; (split; [exact Hr|]); simpl.
  - assert (forall ex : list ExistingAssignment.t,
              List.filter (fun e => known [] (ExistingAssignment.driverId e)) ex = [])
      as Hnone by (induction ex as [|e ex IH]; [done|exact IH]).
    by rewrite Hnone.
  - destruct (buildDistribution_spec drivers existingAssignments _ st Hinv)
      as [Hperm _].
    rewrite (totalTripCount_Permutation _ _ Hperm), totalTripCount_entries,
      sum_combinedCount.
    unfold existingCount, newCount.
    rewrite (sum_counts ExistingAssignment.driverId) by done.
    rewrite (sum_counts Assignment.driverId) by done.
    f_equal. f_equal.
    assert (forall l, (forall a, In a l -> In a (assignments st)) ->
              List.filter (fun x => known drivers (Assignment.driverId x)) l = l)
      as Hall.
    { induction l as [|a l IH]; intros Hl; [done|]. simpl.
      destruct (assignments_known _ _ _ st a Hinv (Hl a (or_introl eq_refl)))
        as (d & Hd & ->).
      rewrite (known_driver drivers d Hd). f_equal.
      apply IH. intros x Hx. apply Hl. by right. }
    by rewrite Hall.
Qed.

(** *** The per-day lists *)

Lemma byPriorityThenName_le a b :
  byPriorityThenName a b <= 0 <-> dayOrder a b.
Proof.
  unfold byPriorityThenName, dayOrder, priorityOf.
  destruct (Z.eqb_spec (default 2 (Driver.priority a)
                        - default 2 (Driver.priority b)) 0); simpl; lia.
Qed.

Lemma StronglySorted_filter {A} (R : A -> A -> Prop) (f : A -> bool) l :
  StronglySorted R l -> StronglySorted R (List.filter f l).
Proof.
  induction 1 as [|x l Hl IH Hx]; simpl; [constructor|].
  destruct (f x); [|exact IH].
  constructor; [exact IH|].
  apply List.Forall_forall. intros y [Hy _]%filter_In.
  by eapply List.Forall_forall in Hx.
Qed.

Section Presorted.
(** [localeCompare] is a consistent comparator whose sign flips with its
    arguments. *)
Hypothesis localeCompare_antisym :
  forall a b, 0 <= localeCompare a b -> localeCompare b a <= 0.
Hypothesis localeCompare_antisym' :
  forall a b, localeCompare a b <= 0 -> 0 <= localeCompare b a.
Hypothesis localeCompare_trans :
  forall a b c, localeCompare a b <= 0 -> localeCompare b c <= 0 ->
                localeCompare a c <= 0.

Lemma dayDriversFor_StronglySorted drivers day :
  StronglySorted dayOrder (dayDriversFor drivers day).
Proof.
  unfold dayDriversFor.
  assert (StronglySorted (fun a b => byPriorityThenName a b <= 0)
            (Js.sort byPriorityThenName (List.filter (availableOn day) drivers)))
    as Hsorted.
  { apply sort_StronglySorted.
    - intros a b Hab. apply byPriorityThenName_le.
      unfold byPriorityThenName, dayOrder, priorityOf in *.
      destruct (Z.eqb_spec (default 2 (Driver.priority a)
                            - default 2 (Driver.priority b)) 0);
        simpl in Hab; [|lia].
      right. split; [lia|]. apply localeCompare_antisym. lia.
    - intros a b c Hab%byPriorityThenName_le Hbc%byPriorityThenName_le.
      apply byPriorityThenName_le. unfold dayOrder in *.
      destruct Hab as [Hab|[Hab Hnab]], Hbc as [Hbc|[Hbc Hnbc]];
        try (left; lia).
      right. split; [lia|]. by eapply localeCompare_trans. }
  induction Hsorted as [|a k Hk IH Ha]; constructor; [exact IH|].
  eapply Forall_impl; [exact Ha|]. intros b. apply byPriorityThenName_le.
Qed.

(** X7.  The list of a day holds the input drivers available that day,
    each as often as in the input, sorted by priority (absent counting as
    2) and then by name. *)
Theorem dayDrivers_sorted drivers day :
  Permutation (dayDriversFor drivers day)
              (List.filter (fun d => existsb (fun a => a =? day)
                                       (Driver.availability d)) drivers) /\
  StronglySorted dayOrder (dayDriversFor drivers day).
Proof.
  split.
  - unfold dayDriversFor. apply sort_Permutation.
  - apply dayDriversFor_StronglySorted.
Qed.

Lemma pickDriver_keeps load bestDriver driver :
  dayOrder bestDriver driver ->
  loadOf load (Driver.id driver) = loadOf load (Driver.id bestDriver) ->
  pickDriver load bestDriver driver = bestDriver.
Proof.
  unfold dayOrder, pickDriver, priorityOf. intros Hord Hload.
  destruct (Z.ltb_spec (default 2 (Driver.priority driver))
              (default 2 (Driver.priority bestDriver))); [lia|].
  destruct (Z.gtb_spec (default 2 (Driver.priority driver))
              (default 2 (Driver.priority bestDriver))); [done|].
  rewrite Hload, Z.ltb_irrefl.
  destruct (Z.gtb_spec (loadOf load (Driver.id bestDriver))
              (loadOf load (Driver.id bestDriver))); [lia|].
  destruct Hord as [Hord|[_ Hname]]; [lia|].
  apply localeCompare_antisym' in Hname.
  destruct (Z.ltb_spec (localeCompare (Driver.name driver)
                          (Driver.name bestDriver)) 0); [lia|done].
Qed.

(** X8.  When the drivers without a conflict all carry the same load, the
    selected driver is the first of them in the list of the day: the order
    by priority and name computed once for the day decides. *)
Theorem equal_loads_select_first drivers st t first rest :
  availableDriversOf (buildDriversByDay drivers) (driverTimestamps st) t
    = first :: rest ->
  (forall c, In c rest ->
             loadOf (driverLoad st) (Driver.id c) =
             loadOf (driverLoad st) (Driver.id first)) ->
  selectedDriverOf (buildDriversByDay drivers) st t = Some first /\
  (forall c, In c rest -> dayOrder first c).
Proof.
  intros Havail Hloads.
  assert (StronglySorted dayOrder (first :: rest)) as Hsorted.
  { rewrite <- Havail. unfold availableDriversOf. apply StronglySorted_filter.
    unfold dayDriversOf. rewrite buildDriversByDay_lookup.
    destruct ((0 <=? effectiveDayOf t) && (effectiveDayOf t <? 7)); simpl;
      [apply dayDriversFor_StronglySorted|constructor]. }
  apply StronglySorted_inv in Hsorted as [_ Hfirst].
  rewrite List.Forall_forall in Hfirst.
  split; [|exact Hfirst].
  unfold selectedDriverOf. rewrite Havail. f_equal.
  clear Havail. induction rest as [|d rest IH]; [done|].
  simpl. rewrite pickDriver_keeps.
  - apply IH; intros c Hc; [apply Hloads|apply Hfirst]; by right.
  - apply Hfirst. by left.
  - apply Hloads. by left.
Qed.

End Presorted.

End Engine.

(** ** The examples *)

Lemma compareCodeUnits_antisym a b :
  0 <= compareCodeUnits a b -> compareCodeUnits b a <= 0.
Proof.
  unfold compareCodeUnits. rewrite (String.compare_antisym b a).
  destruct (String.compare a b); simpl; lia.
Qed.

Lemma compareCodeUnits_trans a b c :
  compareCodeUnits a b <= 0 -> compareCodeUnits b c <= 0 ->
  compareCodeUnits a c <= 0.
Proof.
  unfold compareCodeUnits.
  destruct (String.compare a b) eqn:Hab; [| |lia].
  - apply String.compare_eq_iff in Hab as ->. lia.
  - destruct (String.compare b c) eqn:Hbc; [| |lia].
    + apply String.compare_eq_iff in Hbc as <-. rewrite Hab. lia.
    + intros _ _.
      apply String_as_OT.cmp_lt in Hab, Hbc.
      pose proof (String_as_OT.lt_trans _ _ _ Hab Hbc) as Hac.
      apply String_as_OT.cmp_lt in Hac. unfold String_as_OT.cmp in Hac.
      rewrite Hac. lia.
Qed.

(** A trip at 00:20 on a Wednesday goes to the driver of Tuesday night;
    its timestamp stays on the Wednesday. *)
Example night_shift_trip :
  effectiveDayOf (tripAt "1" (Some "00:20")) = 2 /\
  tripTimestampOf (tripAt "1" (Some "00:20")) = Some (1768348800000 + 20 * 60000) /\
  assignTripsToDrivers compareCodeUnits [tripAt "1" (Some "00:20")] [bob; alice] [] =
    Ok {| AssignmentResult.assignments :=
            [{| Assignment.tripId := "1"; Assignment.driverId := "d1";
                Assignment.reasoning := "Tuesday night - Alice (high priority)" |}];
          AssignmentResult.warnings := [];
          AssignmentResult.summary := "Assigned 1 of 1 trips";
          AssignmentResult.distribution :=
            [{| DriverDistribution.driverId := "d1";
                DriverDistribution.driverName := "Alice";
                DriverDistribution.tripCount := 1 |}];
          AssignmentResult.stats :=
            {| Stats.totalTrips := 1; Stats.assignedCount := 1;
               Stats.unassignedCount := 0 |} |}.
Proof. repeat split; vm_compute; reflexivity. Qed.

(** The only driver of the day has an assignment two hours before the
    trip: a warning, no assignment. *)
Example conflict_gives_warning :
  assignTripsToDrivers compareCodeUnits [tripAt "1" (Some "10:00")] [alice]
    [existingAt "d1" (Some "08:00")] =
    Ok {| AssignmentResult.assignments := [];
          AssignmentResult.warnings :=
            ["Trip T-1: All drivers have conflicting trips near 10:00 on 2026-01-14"];
          AssignmentResult.summary := "Assigned 0 of 1 trips";
          AssignmentResult.distribution :=
            [{| DriverDistribution.driverId := "d1";
                DriverDistribution.driverName := "Alice";
                DriverDistribution.tripCount := 1 |}];
          AssignmentResult.stats :=
            {| Stats.totalTrips := 1; Stats.assignedCount := 0;
               Stats.unassignedCount := 1 |} |}.
Proof. vm_compute. reflexivity. Qed.

(** [parseInt] stops at the first character that is no digit, so a time
    with trailing characters is accepted. *)
Example parseTime_trailing_characters :
  parseTime (Some "12x:30") = Some {| hours := 12; minutes := 30 |} /\
  parseTime (Some "abc") = None /\
  parseTime (Some "24:00") = None /\
  parseTime (Some "7:35") = Some {| hours := 7; minutes := 35 |}.
Proof. repeat split; reflexivity. Qed.

(** *** Claim C1 *)

(** Claim C1 as stated fails: Alice has two pre-existing assignments one
    hour apart, at 08:00 and at 09:00; they stay in the union of her
    timestamps, with the new assignment of 12:00. *)
Lemma separation_counterexample :
  ~ (forall x y : Z,
        In (Some x)
           (allTimestamps compareCodeUnits [tripAt "1" (Some "12:00")] [alice]
              [existingAt "d1" (Some "08:00"); existingAt "d1" (Some "09:00")] "d1") ->
        In (Some y)
           (allTimestamps compareCodeUnits [tripAt "1" (Some "12:00")] [alice]
              [existingAt "d1" (Some "08:00"); existingAt "d1" (Some "09:00")] "d1") ->
        x <> y ->
        MIN_HOURS_BETWEEN_TRIPS * Js.msPerHour <= Z.abs (x - y)).
Proof.
  intros H.
  assert (allTimestamps compareCodeUnits [tripAt "1" (Some "12:00")] [alice]
            [existingAt "d1" (Some "08:00"); existingAt "d1" (Some "09:00")] "d1"
          = [Some 1768377600000; Some 1768381200000; Some 1768392000000]) as E
    by (vm_compute; reflexivity).
  rewrite E in H.
  specialize (H 1768377600000 1768381200000).
  unfold MIN_HOURS_BETWEEN_TRIPS, Js.msPerHour in H.
  assert (1768377600000 <> 1768381200000) as Hne by lia.
  specialize (H (or_introl eq_refl) (or_intror (or_introl eq_refl)) Hne). lia.
Qed.

(** A trip exactly three hours after the last assignment of the driver is
    assigned; one minute earlier it is not. *)
Example three_hours_apart :
  runTrace compareCodeUnits [tripAt "1" (Some "12:00")] [alice]
    [existingAt "d1" (Some "09:00")] =
    [(tripAt "1" (Some "12:00"), Some alice)] /\
  runTrace compareCodeUnits [tripAt "1" (Some "11:59")] [alice]
    [existingAt "d1" (Some "09:00")] =
    [(tripAt "1" (Some "11:59"), None)].
Proof. split; vm_compute; reflexivity. Qed.

(** *** Claim C3 *)

(** The second trip of the morning: Alice, of priority 1, is selected
    again, with one trip already, before Bob and Carol who have none. *)
Lemma selection_minimal_witness :
  morningTrips !! 1%nat = Some (tripAt "2" (Some "13:00")) /\
  exists st,
    processTrips compareCodeUnits (buildDriversByDay compareCodeUnits [carol; bob; alice])
      (initLocals [carol; bob; alice] []) (take 1 morningTrips) = Ok st /\
    (forall c, In c [carol; bob; alice] ->
               loadOf (driverLoad st) (Driver.id c) =
               existingCount [] (Driver.id c)
               + newCount (assignments st) (Driver.id c)) /\
    (forall c,
        In c (availableDriversOf (buildDriversByDay compareCodeUnits [carol; bob; alice])
                (driverTimestamps st) (tripAt "2" (Some "13:00"))) <->
        0 <= effectiveDayOf (tripAt "2" (Some "13:00")) <= 6 /\
        In c [carol; bob; alice] /\
        In (effectiveDayOf (tripAt "2" (Some "13:00"))) (Driver.availability c) /\
        forall ts,
          In ts (existingTimestamps [] (Driver.id c)
                 ++ newTimestamps
                      (take 1 (runTrace compareCodeUnits morningTrips
                                 [carol; bob; alice] []))
                      (Driver.id c)) ->
          separated ts (tripTimestampOf (tripAt "2" (Some "13:00")))) /\
    (availableDriversOf (buildDriversByDay compareCodeUnits [carol; bob; alice])
       (driverTimestamps st) (tripAt "2" (Some "13:00")) <> [] ->
     exists d,
       runTrace compareCodeUnits morningTrips [carol; bob; alice] [] !! 1%nat =
         Some (tripAt "2" (Some "13:00"), Some d) /\
       In d (availableDriversOf (buildDriversByDay compareCodeUnits [carol; bob; alice])
               (driverTimestamps st) (tripAt "2" (Some "13:00"))) /\
       (forall c,
           In c (availableDriversOf
                   (buildDriversByDay compareCodeUnits [carol; bob; alice])
                   (driverTimestamps st) (tripAt "2" (Some "13:00"))) ->
           selectionLe compareCodeUnits (combinedCount [] (assignments st)) d c) /\
       (forall c,
           In c (availableDriversOf
                   (buildDriversByDay compareCodeUnits [carol; bob; alice])
                   (driverTimestamps st) (tripAt "2" (Some "13:00"))) ->
           default 2 (Driver.priority d) <= default 2 (Driver.priority c)) /\
       (forall c,
           In c (availableDriversOf
                   (buildDriversByDay compareCodeUnits [carol; bob; alice])
                   (driverTimestamps st) (tripAt "2" (Some "13:00"))) ->
           default 2 (Driver.priority c) = default 2 (Driver.priority d) ->
           combinedCount [] (assignments st) (Driver.id d)
           <= combinedCount [] (assignments st) (Driver.id c)) /\
       (forall c,
           In c (availableDriversOf
                   (buildDriversByDay compareCodeUnits [carol; bob; alice])
                   (driverTimestamps st) (tripAt "2" (Some "13:00"))) ->
           default 2 (Driver.priority c) = default 2 (Driver.priority d) ->
           combinedCount [] (assignments st) (Driver.id c)
           = combinedCount [] (assignments st) (Driver.id d) ->
           compareCodeUnits (Driver.name d) (Driver.name c) <= 0)).
Proof.
  split; [reflexivity|].
  apply (selection_minimal compareCodeUnits compareCodeUnits_antisym
           compareCodeUnits_trans morningTrips [carol; bob; alice] [] 1
           (tripAt "2" (Some "13:00"))).
  reflexivity.
Defined.

Example priority_outranks_load :
  runTrace compareCodeUnits morningTrips [carol; bob; alice] [] =
    [(tripAt "1" (Some "09:00"), Some alice); (tripAt "2" (Some "13:00"), Some alice)].
Proof. vm_compute. reflexivity. Qed.

(** With equal priority and equal load the name decides. *)
Example name_breaks_tie :
  runTrace compareCodeUnits [tripAt "1" (Some "09:00")] [carol; bob] [] =
    [(tripAt "1" (Some "09:00"), Some bob)].
Proof. vm_compute. reflexivity. Qed.

(** *** Claim C5 *)

(** Claim C5 as stated fails without drivers: two trips are unassigned and
    there is one warning. *)
Lemma warnings_counterexample :
  exists r,
    assignTripsToDrivers compareCodeUnits morningTrips [] [] = Ok r /\
    AssignmentResult.warnings r = ["No active drivers available"] /\
    Stats.unassignedCount (AssignmentResult.stats r) = 2 /\
    lengthZ (AssignmentResult.warnings r) <>
      Stats.unassignedCount (AssignmentResult.stats r).
Proof.
  eexists. split; [reflexivity|]. simpl. repeat split. vm_compute. discriminate.
Qed.

Lemma warnings_one_per_unassigned_trip_witness :
  [alice] <> [] /\
  exists r,
    assignTripsToDrivers compareCodeUnits morningTrips [alice]
      [existingAt "d1" (Some "08:00")] = Ok r /\
    pairsOf (AssignmentResult.assignments r) =
      assignedPairs (runTrace compareCodeUnits morningTrips [alice]
                       [existingAt "d1" (Some "08:00")]) /\
    WarningsFor
      (runTrace compareCodeUnits morningTrips [alice] [existingAt "d1" (Some "08:00")])
      (AssignmentResult.warnings r) /\
    lengthZ (AssignmentResult.warnings r) =
      Stats.unassignedCount (AssignmentResult.stats r).
Proof.
  split; [discriminate|].
  apply (warnings_one_per_unassigned_trip compareCodeUnits). discriminate.
Defined.

(** *** Claim C6 *)

(** Claim C6 as stated fails: the warning of a trip with a rejected time
    quotes the time, the warning of the same trip without a time does not. *)
Lemma rejected_time_counterexample :
  parseTime (Trip.plannedArrivalTime malformedTrip) = None /\
  exists r r',
    assignTripsToDrivers compareCodeUnits [malformedTrip] [alice]
      [existingAt "d1" None] = Ok r /\
    assignTripsToDrivers compareCodeUnits [withoutTime malformedTrip] [alice]
      [existingAt "d1" None] = Ok r' /\
    AssignmentResult.warnings r =
      ["Trip T-1: All drivers have conflicting trips near abc on 2026-01-14"] /\
    AssignmentResult.warnings r' =
      ["Trip T-1: All drivers have conflicting trips near unknown time on 2026-01-14"] /\
    r <> r'.
Proof.
  split; [reflexivity|].
  do 2 eexists. split; [vm_compute; reflexivity|]. split; [vm_compute; reflexivity|].
  simpl. repeat split. discriminate.
Qed.

Lemma rejected_time_as_absent_witness :
  Trip.plannedArrivalTime malformedTrip = Some "abc" /\
  parseTime (Some "abc") = None /\
  tripTimestampOf malformedTrip =
    Js.setUTCHours (Trip.tripDate malformedTrip) 0 0 0 0 /\
  tripTimestampOf malformedTrip = tripTimestampOf (withoutTime malformedTrip) /\
  effectiveDayOf malformedTrip = Trip.dayOfWeek malformedTrip /\
  exists r r',
    assignTripsToDrivers compareCodeUnits
      ([] ++ malformedTrip :: [tripAt "2" (Some "12:00")]) [alice]
      [existingAt "d1" None] = Ok r /\
    assignTripsToDrivers compareCodeUnits
      ([] ++ withoutTime malformedTrip :: [tripAt "2" (Some "12:00")]) [alice]
      [existingAt "d1" None] = Ok r' /\
    AssignmentResult.assignments r = AssignmentResult.assignments r' /\
    AssignmentResult.summary r = AssignmentResult.summary r' /\
    AssignmentResult.distribution r = AssignmentResult.distribution r' /\
    AssignmentResult.stats r = AssignmentResult.stats r' /\
    exists ws1 w w' ws2,
      AssignmentResult.warnings r = ws1 ++ w ++ ws2 /\
      AssignmentResult.warnings r' = ws1 ++ w' ++ ws2 /\
      (w = w' \/
       exists date,
         w = ["Trip " +:+ Trip.tripId malformedTrip
              +:+ ": All drivers have conflicting trips near " +:+ "abc"
              +:+ " on " +:+ date] /\
         w' = ["Trip " +:+ Trip.tripId malformedTrip
               +:+ ": All drivers have conflicting trips near unknown time on "
               +:+ date]).
Proof.
  split; [reflexivity|]. split; [reflexivity|].
  apply (rejected_time_as_absent compareCodeUnits [] malformedTrip
           [tripAt "2" (Some "12:00")] [alice] [existingAt "d1" None] "abc");
    reflexivity.
Defined.

(** *** Claim C7 *)


(** *** Claim C8 *)

(** Claim C8 as stated fails without trips: Alice has one pre-existing
    assignment and the distribution is empty. *)
Lemma distribution_counterexample :
  exists r,
    assignTripsToDrivers compareCodeUnits [] [alice] [existingAt "d1" (Some "08:00")]
      = Ok r /\
    In alice [alice] /\
    combinedCount [existingAt "d1" (Some "08:00")] (AssignmentResult.assignments r)
      (Driver.id alice) = 1 /\
    AssignmentResult.distribution r = [].
Proof.
  eexists. split; [reflexivity|]. simpl. repeat split. by left.
Qed.

Lemma distribution_combined_counts_witness :
  morningTrips <> [] /\
  exists r,
    assignTripsToDrivers compareCodeUnits morningTrips [carol; bob; alice]
      [existingAt "d2" (Some "08:00")] = Ok r /\
    Permutation
      (AssignmentResult.distribution r)
      (map (distributionEntry [existingAt "d2" (Some "08:00")]
              (AssignmentResult.assignments r))
           (List.filter
              (fun d => combinedCount [existingAt "d2" (Some "08:00")]
                          (AssignmentResult.assignments r) (Driver.id d) >=? 1)
              [carol; bob; alice])) /\
    StronglySorted
      (fun a b => DriverDistribution.tripCount a >= DriverDistribution.tripCount b)
      (AssignmentResult.distribution r).
Proof.
  split; [discriminate|].
  apply (distribution_combined_counts compareCodeUnits). discriminate.
Defined.

(** ** Properties of the CSV import *)

Lemma isDigit_In c : Csv.isDigit c = true -> In c digitChars.
Proof.
  destruct c as [[] [] [] [] [] [] [] []]; vm_compute; intros H;
    try discriminate; repeat ((left; reflexivity) || right).
Qed.

Lemma digitGroups_one c : In c digitChars -> In (String c EmptyString) digitGroups.
Proof.
  intros H. apply in_or_app. left.
  apply (in_map (fun c => String c EmptyString)), H.
Qed.

Lemma digitGroups_two c1 c2 :
  In c1 digitChars -> In c2 digitChars ->
  In (String c1 (String c2 EmptyString)) digitGroups.
Proof.
  intros H1 H2. apply in_or_app. right. apply in_flat_map.
  exists c1. split; [exact H1|].
  apply (in_map (fun c2 => String c1 (String c2 EmptyString))), H2.
Qed.

Lemma matchMinutes_Some g rest g1 g2 :
  Csv.matchMinutes g rest = Some (g1, g2) ->
  g1 = g /\ rest = ":" +:+ g2 /\ In g2 digitGroups.
Proof.
  unfold Csv.matchMinutes.
  destruct rest as [|c [|m1 [|m2 [|? ?]]]]; try discriminate.
  destruct (Ascii.eqb_spec c ":") as [->|]; [|discriminate]. simpl.
  destruct (Csv.isDigit m1) eqn:H1; [|discriminate].
  destruct (Csv.isDigit m2) eqn:H2; [|discriminate].
  simpl. intros [= <- <-]. repeat split.
  apply digitGroups_two; by apply isDigit_In.
Qed.

Lemma matchTime_Some x g1 g2 :
  Csv.matchTime x = Some (g1, g2) ->
  x = g1 +:+ ":" +:+ g2 /\ In g1 digitGroups /\ In g2 digitGroups.
Proof.
  unfold Csv.matchTime.
  destruct x as [|h1 rest1]; [discriminate|].
  destruct (Csv.isDigit h1) eqn:H1; [|discriminate].
  destruct rest1 as [|h2 rest2]; [discriminate|].
  destruct (Csv.isDigit h2) eqn:H2.
  - intros (-> & -> & Hg2)%matchMinutes_Some. repeat split; [|exact Hg2].
    apply digitGroups_two; by apply isDigit_In.
  - intros (-> & Heq & Hg2)%matchMinutes_Some.
    simpl in Heq. injection Heq as -> ->. repeat split; [|exact Hg2].
    by apply digitGroups_one, isDigit_In.
Qed.

Lemma digitGroups_parseInt g :
  In g digitGroups -> exists v, Js.parseInt g = Some v /\ 0 <= v <= 99.
Proof.
  assert (forallb (fun g => match Js.parseInt g with
                            | Some v => (0 <=? v) && (v <=? 99)
                            | None => false
                            end) digitGroups = true) as Hall
    by (vm_compute; reflexivity).
  intros Hg. rewrite forallb_forall in Hall. specialize (Hall g Hg).
  destruct (Js.parseInt g) as [v|]; [|discriminate].
  exists v. split; [done|]. lia.
Qed.

(** The times in the form the import writes them. *)
Lemma canonical_time h m :
  0 <= h <= 23 -> 0 <= m <= 59 ->
  let t := Js.padStart (Js.numberToString (Some h)) 2 "0" +:+ ":"
           +:+ Js.padStart (Js.numberToString (Some m)) 2 "0" in
  String.length t = 5%nat /\
  parseTime (Some t) = Some {| hours := h; minutes := m |} /\
  Csv.parseTime (Some t) = Some t.
Proof.
  intros Hh Hm t.
  set (check := fun h m : Z =>
    let t := Js.padStart (Js.numberToString (Some h)) 2 "0" +:+ ":"
             +:+ Js.padStart (Js.numberToString (Some m)) 2 "0" in
    Nat.eqb (String.length t) 5
    && match parseTime (Some t) with
       | Some p => (hours p =? h) && (minutes p =? m)
       | None => false
       end
    && match Csv.parseTime (Some t) with
       | Some t' => String.eqb t' t
       | None => false
       end).
  assert (forallb (fun h => forallb (check h) (seqZ 0 60)) (seqZ 0 24) = true)
    as Hall by (vm_compute; reflexivity).
  rewrite forallb_forall in Hall.
  assert (In h (seqZ 0 24)) as Hinh by (apply list_elem_of_In, elem_of_seqZ; lia).
  specialize (Hall h Hinh). rewrite forallb_forall in Hall.
  assert (In m (seqZ 0 60)) as Hinm by (apply list_elem_of_In, elem_of_seqZ; lia).
  specialize (Hall m Hinm). unfold check in Hall. fold t in Hall.
  apply andb_true_iff in Hall as [Hall H3].
  apply andb_true_iff in Hall as [H1 H2].
  split; [by apply Nat.eqb_eq|]. split.
  - destruct (parseTime (Some t)) as [[ph pm]|]; [|discriminate].
    simpl in H2. apply andb_true_iff in H2 as [->%Z.eqb_eq ->%Z.eqb_eq]. done.
  - destruct (Csv.parseTime (Some t)) as [t'|]; [|discriminate].
    by apply String.eqb_eq in H3 as ->.
Qed.

(** What an accepted cell looks like, and what is made of it. *)
Lemma csv_parseTime_inv cell t :
  Csv.parseTime cell = Some t ->
  exists s g1 g2 h m,
    cell = Some s /\ Js.trim s = g1 +:+ ":" +:+ g2 /\
    Js.parseInt g1 = Some h /\ Js.parseInt g2 = Some m /\
    0 <= h <= 23 /\ 0 <= m <= 59 /\
    t = Js.padStart (Js.numberToString (Some h)) 2 "0" +:+ ":"
        +:+ Js.padStart (Js.numberToString (Some m)) 2 "0".
Proof.
  unfold Csv.parseTime. destruct cell as [s|]; [|discriminate].
  destruct s as [|c s]; [discriminate|].
  set (raw := String c s). cbv zeta.
  destruct (Js.trim raw) as [|c' s'] eqn:Htrim; [discriminate|].
  destruct (Csv.matchTime (String c' s')) as [[g1 g2]|] eqn:Hmatch; [|discriminate].
  apply matchTime_Some in Hmatch as (Hx & Hg1 & Hg2).
  destruct (digitGroups_parseInt g1 Hg1) as (h & Hp1 & Hh).
  destruct (digitGroups_parseInt g2 Hg2) as (m & Hp2 & Hm).
  rewrite Hp1, Hp2.
  unfold Csv.ltNum, Csv.gtNum.
  destruct (Z.ltb_spec h 0), (Z.gtb_spec h 23), (Z.ltb_spec m 0), (Z.gtb_spec m 59);
    simpl; try discriminate.
  intros [= <-].
  exists raw, g1, g2, h, m. rewrite Htrim.
  split; [done|]. split; [done|]. split; [done|]. split; [done|].
  split; [lia|]. split; [lia|]. done.
Qed.

(** X9.  A time that the import accepts is written as two digits, a
    colon, two digits, with an hour up to 23 and a minute up to 59 read
    from the digits around the colon of the trimmed cell.  The assignment
    engine reads this string back to the same hour and minute, and the
    import maps it to itself. *)
Theorem csv_time_normalised cell t :
  Csv.parseTime cell = Some t ->
  exists h m,
    0 <= h <= 23 /\ 0 <= m <= 59 /\
    String.length t = 5%nat /\
    parseTime (Some t) = Some {| hours := h; minutes := m |} /\
    Csv.parseTime (Some t) = Some t /\
    exists s g1 g2,
      cell = Some s /\ Js.trim s = g1 +:+ ":" +:+ g2 /\
      Js.parseInt g1 = Some h /\ Js.parseInt g2 = Some m.
Proof.
  intros (s & g1 & g2 & h & m & -> & Htrim & Hp1 & Hp2 & Hh & Hm & ->)%csv_parseTime_inv.
  destruct (canonical_time h m Hh Hm) as (Hlen & Hengine & Hcsv).
  exists h, m. split; [exact Hh|]. split; [exact Hm|].
  split; [exact Hlen|]. split; [exact Hengine|]. split; [exact Hcsv|].
  by exists s, g1, g2.
Qed.

Section CsvImport.
Variable parse : string -> string -> result Js.Date.
Variable newDate : string -> Js.Date.
Variable getDay : Js.Date -> Z.

Lemma tryFormats_valid trimmed formats d :
  Csv.tryFormats parse trimmed formats = Some d -> exists t, d = Some t.
Proof.
  induction formats as [|format formats IH]; [discriminate|]. simpl.
  destruct (parse trimmed format) as [parsed|]; [|exact IH].
  destruct parsed as [t|]; simpl; [|exact IH].
  intros [= <-]. by exists t.
Qed.

Lemma tryFormats_none trimmed formats :
  (forall format, In format formats ->
                  match parse trimmed format with
                  | Ok (Some _) => False
                  | _ => True
                  end) ->
  Csv.tryFormats parse trimmed formats = None.
Proof.
  induction formats as [|format formats IH]; intros H; [done|]. simpl.
  pose proof (H format (or_introl eq_refl)) as Hf.
  destruct (parse trimmed format) as [[t|]|]; [done| |];
    apply IH; intros f Hin; apply H; by right.
Qed.

Lemma parseFlexibleDate_Some cell d :
  Csv.parseFlexibleDate parse newDate cell = Some d -> exists t, d = Some t.
Proof.
  unfold Csv.parseFlexibleDate.
  destruct cell as [[|c s]|]; try discriminate. cbv zeta.
  destruct (Csv.tryFormats parse _ Csv.DATE_FORMATS) as [parsed|] eqn:Htry.
  - intros [= <-]. by eapply tryFormats_valid.
  - destruct (newDate _) as [t|]; simpl; [|discriminate].
    intros [= <-]. by exists t.
Qed.

(** X10.  A date that [parseFlexibleDate] returns is never an Invalid
    Date; a missing or empty cell gives none; and when the date library
    throws or gives an Invalid Date for every format, the result is what
    the native parsing of the trimmed cell gives, if that is a valid
    date. *)
Theorem parseFlexibleDate_valid cell :
  (forall d, Csv.parseFlexibleDate parse newDate cell = Some d ->
             exists t, d = Some t) /\
  (cell = None \/ cell = Some EmptyString ->
   Csv.parseFlexibleDate parse newDate cell = None) /\
  (forall s,
      cell = Some s -> s <> EmptyString ->
      (forall format, In format Csv.DATE_FORMATS ->
                      match parse (Js.trim s) format with
                      | Ok (Some _) => False
                      | _ => True
                      end) ->
      Csv.parseFlexibleDate parse newDate cell =
        match newDate (Js.trim s) with
        | Some t => Some (Some t)
        | None => None
        end).
Proof.
  split; [|split].
  - intros d. apply parseFlexibleDate_Some.
  - by intros [->| ->].
  - intros s -> Hs Hfail. destruct s as [|c s]; [done|].
    unfold Csv.parseFlexibleDate. cbv zeta.
    rewrite (tryFormats_none _ _ Hfail).
    by destruct (newDate _).
Qed.

Lemma has_false trips key :
  Csv.has trips key = false <-> ~ In key (map fst trips).
Proof.
  unfold Csv.has. induction trips as [|[k v] trips IH]; simpl; [tauto|].
  rewrite orb_false_iff, IH.
  destruct (String.eqb_spec k key); intuition congruence.
Qed.

Lemma set_fresh trips key value :
  Csv.has trips key = false ->
  Csv.set trips key value = trips ++ [(key, value)].
Proof.
  unfold Csv.has. induction trips as [|[k v] trips IH]; simpl; [done|].
  intros [Hk Hrest]%orb_false_iff. rewrite Hk. by rewrite IH.
Qed.

(** What the loop over the rows keeps. *)
Lemma processRows_inv data :
  let st :=
    foldl (Csv.processRow parse newDate getDay)
      {| Csv.trips := []; Csv.errors := []; Csv.skippedCanceled := 0;
         Csv.skippedDuplicate := 0; Csv.skippedInvalidDate := 0 |} data in
  NoDup (map fst (Csv.trips st)) /\
  Forall (fun kv => ParsedTrip.tripId (snd kv) = fst kv /\
                    importedTrip getDay (snd kv)) (Csv.trips st) /\
  map fst (Csv.trips st) `sublist_of` rowIds data /\
  lengthZ (Csv.trips st) + Csv.skippedCanceled st + Csv.skippedDuplicate st
    + Csv.skippedInvalidDate st + lengthZ (List.filter lacksId data)
    = lengthZ data /\
  lengthZ (Csv.errors st) = Csv.skippedInvalidDate st.
Proof.
  induction data as [|row data IH] using rev_ind; cbv zeta.
  - simpl. repeat split; [constructor|constructor|constructor].
  - rewrite foldl_snoc.
    set (st := foldl (Csv.processRow parse newDate getDay) _ data) in *.
    destruct IH as (Hnodup & Hall & Hsub & Hcount & Herr).
    unfold rowIds in *. rewrite omap_app, List.filter_app.
    unfold lengthZ in *. rewrite !length_app.
    change (List.filter lacksId [row]) with (if lacksId row then [row] else []).
    change (omap CSVRow.TripID [row]) with (option_list (CSVRow.TripID row)).
    assert (lacksId row =
            negb (String.eqb (stageOf row) "Canceled") &&
            match CSVRow.TripID row with
            | None | Some EmptyString => true
            | Some _ => false
            end) as -> by reflexivity.
    unfold Csv.processRow.
    change (match CSVRow.TripStage row with
            | None | Some EmptyString => "Upcoming"
            | Some stage => stage
            end) with (stageOf row).
    destruct (String.eqb_spec (stageOf row) "Canceled") as [Hc|Hc]; simpl.
    { repeat split; try done; [by apply sublist_inserts_r|lia]. }
    destruct (CSVRow.TripID row) as [[|c id]|] eqn:Hid; simpl.
    { repeat split; try done; [by apply sublist_inserts_r|lia]. }
    2:{ repeat split; try done; [by rewrite app_nil_r|lia]. }
    set (tripId := String c id) in *.
    destruct (Csv.has (Csv.trips st) tripId) eqn:Hhas; simpl.
    { repeat split; try done; [by apply sublist_inserts_r|lia]. }
    destruct (Csv.parseFlexibleDate parse newDate
                (CSVRow.Stop1PlannedArrivalDate row)) as [tripDate|] eqn:Hdate;
      simpl.
    + rewrite (set_fresh _ _ _ Hhas), map_app, !length_app. simpl.
      split; [|split; [|split; [|split]]].
      * apply NoDup_app. split; [exact Hnodup|]. split; [|apply NoDup_singleton].
        intros k Hk ->%list_elem_of_singleton.
        apply has_false in Hhas. by apply Hhas, list_elem_of_In.
      * apply Forall_app. split; [exact Hall|].
        constructor; [|constructor]. simpl. split; [done|].
        destruct (parseFlexibleDate_Some _ _ Hdate) as (t & ->).
        repeat split; try done; [by exists t|].
        destruct (Csv.parseTime (CSVRow.Stop1PlannedArrivalTime row))
          as [time|] eqn:Htime; [|by left].
        right.
        apply csv_parseTime_inv in Htime
          as (s & g1 & g2 & h & m & _ & _ & _ & _ & Hh & Hm & ->).
        destruct (canonical_time h m Hh Hm) as (_ & Hp & _).
        by eexists _, h, m.
      * by apply sublist_app.
      * lia.
      * exact Herr.
    + rewrite !length_app. simpl.
      repeat split; try done; [by apply sublist_inserts_r|lia|lia].
Qed.

(** X11.  Every row is accounted for: the trips returned, the canceled
    rows, the duplicates, the rows with an invalid date and the rows that
    lack a trip id add up to the number of rows; and there is one error
    message for each row with an invalid date. *)
Theorem parseTripsCSV_accounting data :
  let r := Csv.parseTripsCSV parse newDate getDay data in
  lengthZ (CSVParseResult.trips r) + CSVParseResult.skippedCanceled r
    + CSVParseResult.skippedDuplicate r + CSVParseResult.skippedInvalidDate r
    + lengthZ (List.filter lacksId data) = lengthZ data /\
  lengthZ (CSVParseResult.errors r) = CSVParseResult.skippedInvalidDate r.
Proof.
  destruct (processRows_inv data) as (_ & _ & _ & Hcount & Herr).
  unfold Csv.parseTripsCSV. simpl. split; [|exact Herr].
  unfold lengthZ in *. rewrite length_map. exact Hcount.
Qed.

(** X12.  The trips returned have pairwise distinct ids, which are ids of
    rows in the order of the rows.  Each has a non-empty id, a stage other
    than "Canceled", a valid date with the day of the week of that date,
    and a planned time that is absent or that the assignment engine
    parses. *)
Theorem parseTripsCSV_trips data :
  let r := Csv.parseTripsCSV parse newDate getDay data in
  NoDup (map ParsedTrip.tripId (CSVParseResult.trips r)) /\
  map ParsedTrip.tripId (CSVParseResult.trips r) `sublist_of` rowIds data /\
  Forall (importedTrip getDay) (CSVParseResult.trips r).
Proof.
  destruct (processRows_inv data) as (Hnodup & Hall & Hsub & _).
  unfold Csv.parseTripsCSV. simpl.
  set (st := foldl (Csv.processRow parse newDate getDay) _ data) in *.
  assert (map ParsedTrip.tripId (map snd (Csv.trips st)) = map fst (Csv.trips st))
    as Hids.
  { rewrite map_map. apply map_ext_in. intros kv Hkv.
    rewrite List.Forall_forall in Hall. by apply Hall. }
  rewrite Hids. split; [exact Hnodup|]. split; [exact Hsub|].
  apply List.Forall_forall. intros p (kv & <- & Hkv)%in_map_iff.
  rewrite List.Forall_forall in Hall. by apply Hall.
Qed.

End CsvImport.

(** X13.  The file is valid exactly when every required column is among
    its header fields, and the missing columns are the required columns
    that are not, in the order of the requirement; a file without header
    fields lacks all of them. *)
Theorem validateCSVColumns_spec fields :
  let headers := default [] fields in
  (fst (Csv.validateCSVColumns fields) = true <->
   forall col, In col Csv.requiredColumns -> In col headers) /\
  (forall col, In col (snd (Csv.validateCSVColumns fields)) <->
               In col Csv.requiredColumns /\ ~ In col headers) /\
  snd (Csv.validateCSVColumns fields) `sublist_of` Csv.requiredColumns /\
  Csv.validateCSVColumns None = (false, Csv.requiredColumns).
Proof.
  intros headers.
  set (missing := List.filter (fun col => negb (Csv.includes headers col))
                    Csv.requiredColumns).
  change (snd (Csv.validateCSVColumns fields)) with missing.
  change (fst (Csv.validateCSVColumns fields))
    with (match missing with [] => true | _ => false end).
  assert (forall col, Csv.includes headers col = true <-> In col headers) as Hinc.
  { intros col. unfold Csv.includes. rewrite existsb_exists. split.
    - intros (x & Hx & ->%String.eqb_eq). done.
    - intros H. exists col. split; [done|]. apply String.eqb_refl. }
  assert (forall col, In col missing <->
                      In col Csv.requiredColumns /\ ~ In col headers) as Hmissing.
  { intros col. unfold missing. rewrite filter_In, negb_true_iff, <- Hinc.
    destruct (Csv.includes headers col); intuition congruence. }
  split; [|split; [exact Hmissing|split; [|reflexivity]]].
  - destruct missing as [|col0 rest] eqn:Hf.
    + split; [|done]. intros _ col Hcol.
      destruct (Csv.includes headers col) eqn:E; [by apply Hinc|].
      exfalso. apply (proj2 (Hmissing col)).
      split; [exact Hcol|]. rewrite <- Hinc. congruence.
    + split; [discriminate|]. intros Hall.
      destruct (proj1 (Hmissing col0) (or_introl eq_refl)) as [Hreq Hno].
      exfalso. by apply Hno, Hall.
  - unfold missing. generalize Csv.requiredColumns. intros l.
    induction l as [|x l IH]; simpl; [constructor|].
    destruct (negb _); by constructor.
Qed.

(** ** Properties of the check of the proposed assignments *)

Lemma filterAssignments_spec tripIdSet driverIdSet warnings l :
  let r := AiActions.filterAssignments tripIdSet driverIdSet warnings l in
  fst r `sublist_of` l /\
  (forall a, In a (fst r) ->
             AIAssignment.tripId a ∈ tripIdSet /\
             AIAssignment.driverId a ∈ driverIdSet) /\
  (forall a, In a l ->
             AIAssignment.tripId a ∈ tripIdSet ->
             AIAssignment.driverId a ∈ driverIdSet -> In a (fst r)) /\
  exists added,
    snd r = warnings ++ added /\
    (length added + length (fst r) = length l)%nat.
Proof.
  revert warnings. induction l as [|a l IH]; intros warnings; cbv zeta.
  - simpl. split; [apply sublist_nil|]. split; [done|]. split; [done|].
    exists []. by rewrite app_nil_r.
  - simpl. unfold AiActions.keepAssignment.
    destruct (decide (AIAssignment.tripId a ∈ tripIdSet)) as [Ht|Ht];
      [rewrite (bool_decide_eq_true_2 _ Ht); simpl;
       destruct (decide (AIAssignment.driverId a ∈ driverIdSet)) as [Hd|Hd];
       [rewrite (bool_decide_eq_true_2 _ Hd)
       |rewrite (bool_decide_eq_false_2 _ Hd)]
      |rewrite (bool_decide_eq_false_2 _ Ht)];
      simpl;
      match goal with
      | |- context [AiActions.filterAssignments _ _ ?w l] =>
          specialize (IH w);
          destruct (AiActions.filterAssignments tripIdSet driverIdSet w l)
            as [kept ws]
      end;
      simpl in *; destruct IH as (Hsub & Hin & Hall & added & Hws & Hlen).
    + split; [by apply sublist_skip|]. split; [|split].
      * intros x [<-|Hx]; [done|]. by apply Hin.
      * intros x [<-|Hx] Hxt Hxd; [by left|]. right. by apply Hall.
      * exists added. split; [done|]. lia.
    + split; [by apply sublist_cons|]. split; [exact Hin|split].
      * intros x [<-|Hx] Hxt Hxd; [done|]. by apply Hall.
      * eexists (_ :: added). rewrite Hws, <- app_assoc. split; [done|].
        simpl. lia.
    + split; [by apply sublist_cons|]. split; [exact Hin|split].
      * intros x [<-|Hx] Hxt Hxd; [done|]. by apply Hall.
      * eexists (_ :: added). rewrite Hws, <- app_assoc. split; [done|].
        simpl. lia.
Qed.

(** X14.  The assignments kept from the response of the language model
    are those whose trip id is the id of a fetched trip and whose driver
    id is the id of a fetched driver, in the order of the response; the
    warnings are those of the response followed by one for each
    assignment left out. *)
Theorem validAssignments_spec tripIds driverIds parsedAssignments parsedWarnings :
  let r := AiActions.validAssignments tripIds driverIds parsedAssignments
             parsedWarnings in
  fst r `sublist_of` parsedAssignments /\
  (forall a, In a (fst r) <->
             In a parsedAssignments /\
             In (AIAssignment.tripId a) tripIds /\
             In (AIAssignment.driverId a) driverIds) /\
  exists added,
    snd r = parsedWarnings ++ added /\
    (length added + length (fst r) = length parsedAssignments)%nat.
Proof.
  cbv zeta. unfold AiActions.validAssignments.
  destruct (filterAssignments_spec (list_to_set tripIds) (list_to_set driverIds)
              parsedWarnings parsedAssignments) as (Hsub & Hin & Hall & Hadded).
  split; [exact Hsub|]. split; [|exact Hadded].
  intros a. split.
  - intros Ha. destruct (Hin a Ha) as [Ht Hd].
    rewrite elem_of_list_to_set in Ht, Hd.
    split; [|split; by apply list_elem_of_In].
    apply list_elem_of_In.
    eapply elem_of_submseteq; [by apply list_elem_of_In|].
    by apply sublist_submseteq.
  - intros (Ha & Ht & Hd).
    apply Hall; [done| |]; rewrite elem_of_list_to_set; by apply list_elem_of_In.
Qed.

(** ** Instances of the further properties *)

Lemma compareCodeUnits_antisym' a b :
  compareCodeUnits a b <= 0 -> 0 <= compareCodeUnits b a.
Proof.
  unfold compareCodeUnits. rewrite (String.compare_antisym b a).
  destruct (String.compare a b); simpl; lia.
Qed.

(** A trip at 23:57 and a trip at 01:11 of the next day are 74 minutes
    apart. *)
Lemma conflict_iff_minutes_witness :
  -8640000000000000 <= 1768348800000 < 8640000000000000 /\
  -8640000000000000 <= 1768435200000 < 8640000000000000 /\
  (timestampsTooClose (getTimestamp (Some 1768348800000) (Some "23:57"))
     (getTimestamp (Some 1768435200000) (Some "01:11")) = true <->
   Z.abs (minuteOfEpoch 1768348800000 (Some "23:57")
          - minuteOfEpoch 1768435200000 (Some "01:11"))
     < 60 * MIN_HOURS_BETWEEN_TRIPS).
Proof.
  split; [lia|]. split; [lia|].
  apply (conflict_iff_minutes 1768348800000 (Some "23:57")
           1768435200000 (Some "01:11")); lia.
Defined.

Example conflict_across_midnight :
  timestampsTooClose (getTimestamp (Some 1768348800000) (Some "23:57"))
    (getTimestamp (Some 1768435200000) (Some "01:11")) = true /\
  minuteOfEpoch 1768435200000 (Some "01:11")
  - minuteOfEpoch 1768348800000 (Some "23:57") = 74.
Proof. split; vm_compute; reflexivity. Qed.

Lemma unassigned_warning_witness :
  selectedDriverOf compareCodeUnits (buildDriversByDay compareCodeUnits [alice])
    (initLocals [alice] [existingAt "d1" (Some "08:00")])
    (tripAt "1" (Some "10:00")) = None /\
  exists st' w,
    processTrip compareCodeUnits (buildDriversByDay compareCodeUnits [alice])
      (initLocals [alice] [existingAt "d1" (Some "08:00")])
      (tripAt "1" (Some "10:00")) = Ok st' /\
    driverLoad st' =
      driverLoad (initLocals [alice] [existingAt "d1" (Some "08:00")]) /\
    driverTimestamps st' =
      driverTimestamps (initLocals [alice] [existingAt "d1" (Some "08:00")]) /\
    assignments st' =
      assignments (initLocals [alice] [existingAt "d1" (Some "08:00")]) /\
    warnings st' =
      warnings (initLocals [alice] [existingAt "d1" (Some "08:00")]) ++ [w] /\
    (((forall d, In d [alice] ->
                 ~ (0 <= effectiveDayOf (tripAt "1" (Some "10:00")) <= 6 /\
                    In (effectiveDayOf (tripAt "1" (Some "10:00")))
                       (Driver.availability d))) /\
      w = noDriverWarning (tripAt "1" (Some "10:00"))) \/
     ((exists d, In d [alice] /\
                 0 <= effectiveDayOf (tripAt "1" (Some "10:00")) <= 6 /\
                 In (effectiveDayOf (tripAt "1" (Some "10:00")))
                    (Driver.availability d)) /\
      exists iso,
        Js.toISOString (Trip.tripDate (tripAt "1" (Some "10:00"))) = Ok iso /\
        w = conflictWarning (tripAt "1" (Some "10:00"))
              (hd "" (Js.split "T" iso)))).
Proof.
  split; [vm_compute; reflexivity|].
  apply (unassigned_warning compareCodeUnits [alice]).
  vm_compute. reflexivity.
Defined.

Lemma existing_order_irrelevant_witness :
  Permutation [existingAt "d1" (Some "08:00"); existingAt "d2" (Some "10:00")]
              [existingAt "d2" (Some "10:00"); existingAt "d1" (Some "08:00")] /\
  assignTripsToDrivers compareCodeUnits morningTrips [carol; bob; alice]
    [existingAt "d1" (Some "08:00"); existingAt "d2" (Some "10:00")] =
  assignTripsToDrivers compareCodeUnits morningTrips [carol; bob; alice]
    [existingAt "d2" (Some "10:00"); existingAt "d1" (Some "08:00")].
Proof.
  split; [apply perm_swap|].
  apply (existing_order_irrelevant compareCodeUnits). apply perm_swap.
Defined.

Lemma distribution_total_witness :
  NoDup (map Driver.id [carol; bob; alice]) /\
  morningTrips <> [] /\
  exists r,
    assignTripsToDrivers compareCodeUnits morningTrips [carol; bob; alice]
      [existingAt "d2" (Some "08:00"); existingAt "zz" None] = Ok r /\
    totalTripCount (AssignmentResult.distribution r) =
      lengthZ (List.filter
                 (fun e => known [carol; bob; alice]
                             (ExistingAssignment.driverId e))
                 [existingAt "d2" (Some "08:00"); existingAt "zz" None])
      + Stats.assignedCount (AssignmentResult.stats r).
Proof.
  assert (NoDup (map Driver.id [carol; bob; alice])) as Hnodup.
  { simpl. repeat (apply NoDup_cons; split;
                   [rewrite ?elem_of_cons, elem_of_nil; intuition discriminate|]).
    apply NoDup_nil_2. }
  split; [exact Hnodup|]. split; [discriminate|].
  apply (distribution_total compareCodeUnits); [exact Hnodup|discriminate].
Defined.

Lemma dayDrivers_sorted_witness :
  (forall a b, 0 <= compareCodeUnits a b -> compareCodeUnits b a <= 0) /\
  (forall a b c, compareCodeUnits a b <= 0 -> compareCodeUnits b c <= 0 ->
                 compareCodeUnits a c <= 0) /\
  Permutation (dayDriversFor compareCodeUnits [carol; bob; alice] 3)
              (List.filter (fun d => existsb (fun a => a =? 3)
                                       (Driver.availability d))
                           [carol; bob; alice]) /\
  StronglySorted (dayOrder compareCodeUnits)
    (dayDriversFor compareCodeUnits [carol; bob; alice] 3).
Proof.
  split; [exact compareCodeUnits_antisym|].
  split; [exact compareCodeUnits_trans|].
  apply (dayDrivers_sorted compareCodeUnits compareCodeUnits_antisym
           compareCodeUnits_trans).
Defined.

Example dayDrivers_of_wednesday :
  dayDriversFor compareCodeUnits [carol; bob; alice] 3 = [alice; bob; carol] /\
  dayDriversFor compareCodeUnits [carol; bob; alice] 2 = [alice].
Proof. split; vm_compute; reflexivity. Qed.

Lemma equal_loads_select_first_witness :
  availableDriversOf (buildDriversByDay compareCodeUnits [carol; bob])
    (driverTimestamps (initLocals [carol; bob] []))
    (tripAt "1" (Some "09:00")) = bob :: [carol] /\
  (forall c, In c [carol] ->
             loadOf (driverLoad (initLocals [carol; bob] [])) (Driver.id c) =
             loadOf (driverLoad (initLocals [carol; bob] [])) (Driver.id bob)) /\
  selectedDriverOf compareCodeUnits (buildDriversByDay compareCodeUnits [carol; bob])
    (initLocals [carol; bob] []) (tripAt "1" (Some "09:00")) = Some bob /\
  (forall c, In c [carol] -> dayOrder compareCodeUnits bob c).
Proof.
  assert (availableDriversOf (buildDriversByDay compareCodeUnits [carol; bob])
            (driverTimestamps (initLocals [carol; bob] []))
            (tripAt "1" (Some "09:00")) = bob :: [carol]) as Havail
    by (vm_compute; reflexivity).
  assert (forall c, In c [carol] ->
             loadOf (driverLoad (initLocals [carol; bob] [])) (Driver.id c) =
             loadOf (driverLoad (initLocals [carol; bob] [])) (Driver.id bob))
    as Hloads by (intros c [<-|[]]; vm_compute; reflexivity).
  split; [exact Havail|]. split; [exact Hloads|].
  apply (equal_loads_select_first compareCodeUnits compareCodeUnits_antisym
           compareCodeUnits_antisym' compareCodeUnits_trans [carol; bob]
           (initLocals [carol; bob] []) (tripAt "1" (Some "09:00")) bob [carol]
           Havail Hloads).
Defined.

Lemma csv_time_normalised_witness :
  Csv.parseTime (Some " 7:35 ") = Some "07:35" /\
  exists h m,
    0 <= h <= 23 /\ 0 <= m <= 59 /\
    String.length "07:35" = 5%nat /\
    parseTime (Some "07:35") = Some {| hours := h; minutes := m |} /\
    Csv.parseTime (Some "07:35") = Some "07:35" /\
    exists s g1 g2,
      Some " 7:35 " = Some s /\ Js.trim s = g1 +:+ ":" +:+ g2 /\
      Js.parseInt g1 = Some h /\ Js.parseInt g2 = Some m.
Proof.
  split; [vm_compute; reflexivity|].
  apply (csv_time_normalised (Some " 7:35 ") "07:35").
  vm_compute. reflexivity.
Defined.

(** The import rejects a time with trailing characters, which the engine
    would read. *)
Example csv_time_strict :
  Csv.parseTime (Some "12x:30") = None /\
  Csv.parseTime (Some "1:5") = None /\
  Csv.parseTime (Some "24:00") = None /\
  Csv.parseTime (Some "  ") = None.
Proof. repeat split; vm_compute; reflexivity. Qed.
